(** * Authentication and session state of node-next-registration

    A shallow embedding of the authentication core of the repository:

    - [registration-ui/src/middleware.ts]       (the route gate),
    - [registration-ui/src/services/user.service.ts],
      [registration-ui/src/services/http.client.ts] (the client session
      store, its request headers, its loader and its token observer),
    - [registration-api/src/services/auth.service.ts],
      [registration-api/src/lib/jwt.ts],
      [registration-api/src/routes/auth.route.ts] (credential check, token
      issuing and the login endpoint),
    - [registration-api/src/middleware/auth.ts] (the guard of the private
      routes).

    TypeScript strings are [string], objects used as dictionaries are
    [gmap]s, JSON values are the inductive [json], [undefined]/[null]
    results are [option]s and a thrown exception is the [Throw] branch of
    [result].  What the code takes from its host (JSON.parse, Buffer, atob,
    bcrypt, HMAC, the [ms] package) is a field of the class [Runtime]: the
    theorems about the code hold for every host, and a reference host runs
    them on concrete requests and tokens. *)

From Stdlib Require Import ZArith String Ascii List Bool Lia.
From Stdlib Require Import Decimal DecimalString DecimalZ.
From stdpp Require Import base option list gmap strings.

Set Warnings "-register-all".

Local Open Scope string_scope.
Local Open Scope Z_scope.

(* ===================================================================== *)
(** * JavaScript values *)
(* ===================================================================== *)

(** A JSON value as [JSON.parse] returns it.  Numbers are the integers:
    the numeric claims of a token ([iat], [exp]) are second counts. *)
Inductive json : Type :=
| JNull
| JBool (b : bool)
| JNum (n : Z)
| JStr (s : string)
| JArr (items : list json)
| JObj (fields : list (string * json)).

(** The result of JavaScript arithmetic: a finite value, an infinity or
    [NaN]. *)
Inductive number : Type :=
| Fin (z : Z)
| PInf
| NInf
| NaN.

(** A computation that may throw. *)
Inductive result (A : Type) : Type :=
| Ok (a : A)
| Throw (msg : string).
Arguments Ok {A} a.
Arguments Throw {A} msg.

(** Own property lookup in an object literal ([None] is [undefined]). *)
Fixpoint assoc {A : Type} (k : string) (fs : list (string * A)) : option A :=
  match fs with
  | [] => None
  | (k', v) :: rest => if String.eqb k' k then Some v else assoc k rest
  end.

(** [v?.name] for a claim name [name]: [undefined] on [null], on a
    primitive and on an array, the own property on an object. *)
Definition prop (name : string) (v : json) : option json :=
  match v with
  | JObj fs => assoc name fs
  | _ => None
  end.

(** JavaScript truthiness of a possibly undefined JSON value. *)
Definition truthy (v : option json) : bool :=
  match v with
  | None | Some JNull => false
  | Some (JBool b) => b
  | Some (JNum n) => negb (Z.eqb n 0)
  | Some (JStr s) => negb (String.eqb s "")
  | Some (JArr _) | Some (JObj _) => true
  end.

(** Truthiness of a possibly undefined string ([!!token]). *)
Definition nonempty (s : option string) : bool :=
  match s with
  | Some t => negb (String.eqb t "")
  | None => false
  end.

(** [s.split(sep)] for a one-character separator. *)
Fixpoint split (sep : ascii) (s : string) : list string :=
  match s with
  | EmptyString => [EmptyString]
  | String c rest =>
      if Ascii.eqb c sep then EmptyString :: split sep rest
      else match split sep rest with
           | [] => [String c EmptyString]
           | p :: ps => String c p :: ps
           end
  end.

(** [s.replace(/c/g, d)] for single characters. *)
Fixpoint replaceAll (c d : ascii) (s : string) : string :=
  match s with
  | EmptyString => EmptyString
  | String a rest => String (if Ascii.eqb a c then d else a) (replaceAll c d rest)
  end.

(** [s.includes(c)] for a single character. *)
Fixpoint includes (c : ascii) (s : string) : bool :=
  match s with
  | EmptyString => false
  | String a rest => Ascii.eqb a c || includes c rest
  end.

(** [s.startsWith(p)]. *)
Fixpoint startsWith (p s : string) : bool :=
  match p, s with
  | EmptyString, _ => true
  | String _ _, EmptyString => false
  | String a p', String b s' => Ascii.eqb a b && startsWith p' s'
  end.

(** [parts[i]] converted to a string, as a built-in that takes a string
    argument sees it: a missing element reads ["undefined"]. *)
Definition at_string (parts : list string) (i : nat) : string :=
  nth i parts "undefined".

(** The host: built-ins and packages the code calls. *)
Class Runtime : Type := {
  (** [JSON.parse]; [None] when it throws. *)
  JSON_parse : string -> option json;
  (** [JSON.stringify]. *)
  JSON_stringify : json -> string;
  (** [Buffer.from(s, 'base64').toString('utf8')]: never throws. *)
  base64_to_utf8 : string -> string;
  (** [Buffer.from(s, 'utf8').toString('base64url')]. *)
  base64url : string -> string;
  (** [atob]; [None] when it throws. *)
  atob : string -> option string;
  (** [ToNumber] on a string, an array or an object. *)
  coerce : json -> number;
  (** [encodeURIComponent]. *)
  encodeURIComponent : string -> string;
  (** [String.prototype.toLowerCase]. *)
  toLowerCase : string -> string;
  (** [bcrypt.compare(plain, hash)]. *)
  bcrypt_compare : string -> string -> bool;
  (** HMAC-SHA-256 of a message under a key, base64url encoded. *)
  HS256 : string -> string -> string;
  (** The [ms] package: a duration in milliseconds, [None] when the text
      is no duration. *)
  ms : string -> option Z;
}.

(** [ToNumber] of a JSON value. *)
Definition ToNumber `{Runtime} (v : json) : number :=
  match v with
  | JNull => Fin 0
  | JBool b => Fin (if b then 1 else 0)
  | JNum n => Fin n
  | _ => coerce v
  end.

(** [x - n] for a finite [n]. *)
Definition num_sub (x : number) (n : Z) : number :=
  match x with
  | Fin z => Fin (z - n)
  | other => other
  end.

(** [Math.max(0, x)]. *)
Definition num_max0 (x : number) : number :=
  match x with
  | Fin z => Fin (Z.max 0 z)
  | PInf => PInf
  | NInf => Fin 0
  | NaN => NaN
  end.

(** [Math.floor(Date.now() / 1000)] for a clock reading in milliseconds. *)
Definition seconds (now : Z) : Z := now / 1000.

(* ===================================================================== *)
(** * Constants ([lib/constants.ts], [utils/response_texts.ts]) *)
(* ===================================================================== *)

Module PAGE_LINKS.
Definition REGISTER : string := "/register".
Definition LOGIN : string := "/login".
Definition PROFILE : string := "/profile".
Definition DASHBOARD : string := "/dashboard".
End PAGE_LINKS.

Module TOKENS.
Definition ACCESS : string := "accessToken".
Definition REFRESH : string := "refreshToken".
End TOKENS.

Module RESPONSE_TEXTS.
Definition INVALID_CREDENTIALS : string := "Invalid credentials".
Definition UNAUTHORIZED : string := "Unauthorized".
End RESPONSE_TEXTS.

Module USER_MESSAGES.
Definition LOGIN_ERROR : string := "Login failed".
Definition PROFILE_LOAD_ERROR : string := "Failed to load profile".
End USER_MESSAGES.

(* ===================================================================== *)
(** * The route gate ([middleware.ts]) *)
(* ===================================================================== *)

(** The payload of a token as [isExpiredJwt] reads it: the second part,
    taken from the URL alphabet to the standard one, decoded and parsed;
    [None] when [JSON.parse] throws. *)
Definition decode_payload `{Runtime} (t : string) : option json :=
  JSON_parse
    (base64_to_utf8 (replaceAll "_" "/" (replaceAll "-" "+" (nth 1 (split "." t) "")))).

(** [isExpiredJwt(token)] at the clock reading [now] (milliseconds). *)
Definition isExpiredJwt `{Runtime} (now : Z) (token : option string) : bool :=
  match token with
  | None => true
  | Some t =>
      if String.eqb t "" then true
      else if negb (Nat.eqb (length (split "." t)) 3) then true
      else
        match decode_payload t with
        | None => true
        | Some payload =>
            match prop "exp" payload with
            | Some (JNum e) => e <=? seconds now
            | _ => false
            end
        end
  end.

(** [req.nextUrl]: the path, the raw query (empty or starting with [?])
    and the decoded query pairs. *)
Record NextUrl : Type := {
  pathname : string;
  search : string;
  searchParams : list (string * string);
}.

(** An incoming request: its URL and its cookies by name. *)
Record NextRequest : Type := {
  nextUrl : NextUrl;
  cookies : gmap string string;
}.

(** [searchParams.has(name)]. *)
Definition params_has (name : string) (ps : list (string * string)) : bool :=
  existsb (fun p => String.eqb (fst p) name) ps.

(** [searchParams.get(name)]. *)
Definition params_get (name : string) (ps : list (string * string)) : option string :=
  assoc name ps.

(** [searchParams.set(name, value)]: the first pair of that name takes the
    value and the later ones go; without one the pair is appended. *)
Fixpoint params_set (name value : string) (ps : list (string * string))
  : list (string * string) :=
  match ps with
  | [] => [(name, value)]
  | (k, v) :: rest =>
      if String.eqb k name
      then (name, value) :: filter (fun p => negb (String.eqb (fst p) name)) rest
      else (k, v) :: params_set name value rest
  end.

(** What the gate answers: continue to the page, or redirect to a path
    with query pairs. *)
Inductive Action : Type :=
| Next
| Redirect (path : string) (query : list (string * string)).

(** A response: the action and the [res.cookies.delete] calls made on it,
    in order. *)
Record NextResponse : Type := {
  action : Action;
  deleted : list string;
}.

Definition isProtected (path : string) : bool :=
  startsWith PAGE_LINKS.DASHBOARD path || startsWith PAGE_LINKS.PROFILE path.

Definition isAuthPage (path : string) : bool :=
  String.eqb path PAGE_LINKS.LOGIN || String.eqb path PAGE_LINKS.REGISTER.

(** The two [delete] calls both clearing branches make. *)
Definition clear_cookies (token : option string) : list string :=
  ((if nonempty token then [TOKENS.ACCESS] else []) ++ [TOKENS.REFRESH])%list.

(** [middleware(req)] at the clock reading [now]. *)
Definition middleware `{Runtime} (now : Z) (req : NextRequest) : NextResponse :=
  let path := pathname (nextUrl req) in
  let token := cookies req !! TOKENS.ACCESS in
  let hasNext := params_has "next" (searchParams (nextUrl req)) in
  let authed := nonempty token && negb (isExpiredJwt now token) in
  if isProtected path && negb authed then
    {| action :=
         Redirect PAGE_LINKS.LOGIN
           (params_set "next" (path ++ search (nextUrl req))
              (searchParams (nextUrl req)));
       deleted := clear_cookies token |}
  else if isAuthPage path && hasNext then
    {| action := Next; deleted := clear_cookies token |}
  else if isAuthPage path && authed && negb hasNext then
    {| action := Redirect PAGE_LINKS.DASHBOARD []; deleted := [] |}
  else
    {| action := Next; deleted := [] |}.

(** The browser's cookies after it has applied a response. *)
Definition apply_response (res : NextResponse) (jar : gmap string string)
  : gmap string string :=
  foldl (fun j name => delete name j) jar (deleted res).

(** The token a cookie jar holds under a name, if any: an absent cookie
    and a cookie with an empty value hold none. *)
Definition held (name : string) (jar : gmap string string) : option string :=
  match jar !! name with
  | Some v => if String.eqb v "" then None else Some v
  | None => None
  end.

(** The request a browser makes when it follows a redirect of the gate:
    to the path and the query of the redirect, with the cookies the
    response left it.  [raw] is the query as the browser writes it;
    [None] when the response is no redirect. *)
Definition follow (res : NextResponse) (raw : string) (req : NextRequest)
  : option NextRequest :=
  match action res with
  | Next => None
  | Redirect path query =>
      Some {| nextUrl := {| pathname := path; search := raw; searchParams := query |};
              cookies := apply_response res (cookies req) |}
  end.

(** The pairs of a name in a query, in order. *)
Definition named (k : string) (ps : list (string * string)) : list (string * string) :=
  filter (fun p => String.eqb (fst p) k) ps.

(* ===================================================================== *)
(** * The client session store ([services/user.service.ts]) *)
(* ===================================================================== *)

(** A cookie the document holds under a name. *)
Record Cookie : Type := {
  value : string;
  maxAge : Z;
}.

(** One assignment to [document.cookie]:
    [name=value; Path=path; Max-Age=maxAge; SameSite=sameSite]. *)
Record CookieWrite : Type := {
  w_name : string;
  w_value : string;
  w_path : string;
  w_maxAge : Z;
  w_sameSite : string;
}.

(** The two storage surfaces of the client.  [window] holds
    [localStorage] and is [None] where [typeof window === 'undefined']
    (server-side rendering); [document] holds the cookie jar and is [None]
    where [typeof document === 'undefined']. *)
Record Host : Type := {
  window : option (gmap string string);
  document : option (gmap string Cookie);
}.

(** The browser's handling of [document.cookie = w]: a lifetime of zero or
    less removes the cookie of that name, any other stores it. *)
Definition write_cookie (w : CookieWrite) (jar : gmap string Cookie)
  : gmap string Cookie :=
  if w_maxAge w <=? 0 then delete (w_name w) jar
  else <[w_name w := {| value := w_value w; maxAge := w_maxAge w |}]> jar.

Definition getToken (h : Host) : option string :=
  match window h with
  | None => None
  | Some ls => ls !! TOKENS.ACCESS
  end.

Definition setToken (token : string) (h : Host) : Host :=
  match window h with
  | None => h
  | Some ls => {| window := Some (<[TOKENS.ACCESS := token]> ls); document := document h |}
  end.

Definition setRefreshToken (token : string) (h : Host) : Host :=
  match window h with
  | None => h
  | Some ls => {| window := Some (<[TOKENS.REFRESH := token]> ls); document := document h |}
  end.

(** The two assignments [clearToken] makes to [document.cookie]. *)
Definition clear_writes : list CookieWrite :=
  [ {| w_name := TOKENS.ACCESS; w_value := ""; w_path := "/"; w_maxAge := 0;
       w_sameSite := "Lax" |};
    {| w_name := TOKENS.REFRESH; w_value := ""; w_path := "/"; w_maxAge := 0;
       w_sameSite := "Lax" |} ].

Definition clearToken (h : Host) : Host :=
  match window h with
  | None => h
  | Some ls =>
      {| window := Some (delete TOKENS.REFRESH (delete TOKENS.ACCESS ls));
         document :=
           match document h with
           | None => None
           | Some jar => Some (foldl (fun j w => write_cookie w j) jar clear_writes)
           end |}
  end.

Definition isAuthenticated (h : Host) : bool := nonempty (getToken h).

Definition logout (h : Host) : Host := clearToken h.

(** The payload of the access token as [login] reads it:
    [JSON.parse(atob(accessToken.split('.')[1]))], [None] when either call
    throws. *)
Definition login_payload `{Runtime} (accessToken : string) : option json :=
  match atob (at_string (split "." accessToken) 1) with
  | None => None
  | Some text => JSON_parse text
  end.

(** The [maxAgeFromJwt] closure of [login]: the seconds left to the [exp]
    of the access token, [None] for its [null]. *)
Definition maxAgeFromJwt `{Runtime} (now : Z) (accessToken : string) : option Z :=
  match login_payload accessToken with
  | None => None
  | Some payload =>
      match prop "exp" payload with
      | Some e =>
          if truthy (Some e) then
            match num_max0 (num_sub (ToNumber e) (seconds now)) with
            | Fin secs => Some secs
            | _ => None
            end
          else None
      | None => None
      end
  end.

(** [maxAgeFromJwt ?? 60 * 60]. *)
Definition login_maxAge `{Runtime} (now : Z) (accessToken : string) : Z :=
  default (60 * 60) (maxAgeFromJwt now accessToken).

(** The two assignments [login] makes to [document.cookie]. *)
Definition login_writes `{Runtime} (now : Z) (accessToken refreshToken : string)
  : list CookieWrite :=
  [ {| w_name := TOKENS.ACCESS; w_value := encodeURIComponent accessToken;
       w_path := "/"; w_maxAge := login_maxAge now accessToken; w_sameSite := "Lax" |};
    {| w_name := TOKENS.REFRESH; w_value := encodeURIComponent refreshToken;
       w_path := "/"; w_maxAge := 60 * 60 * 24 * 30; w_sameSite := "Lax" |} ].

(** The [exp] claim a token carries, read as a token's payload is
    written (URL alphabet, see [decode_payload]); [None] when the payload
    does not parse or has no numeric [exp]. *)
Definition token_exp `{Runtime} (t : string) : option Z :=
  match decode_payload t with
  | Some payload =>
      match prop "exp" payload with
      | Some (JNum e) => Some e
      | _ => None
      end
  | None => None
  end.


(** The user summary of a login response. *)
Record AuthUser : Type := {
  id : string;
  name : string;
  username : string;
  email : string;
}.

Record LoginData : Type := {
  d_accessToken : string;
  d_refreshToken : string;
  d_user : AuthUser;
}.

Record LoginEnvelope : Type := {
  success : bool;
  data : option LoginData;
}.

(** What [HttpClient.request] meets: status 401, another status that is
    not ok (with the message it throws), or a parsed body ([None] for an
    empty one). *)
Inductive HttpOutcome (T : Type) : Type :=
| Http401
| HttpNotOk (message : string)
| HttpBody (body : option T).
Arguments Http401 {T}.
Arguments HttpNotOk {T} message.
Arguments HttpBody {T} body.

(** [HttpClient.request] as [ensureOk] and [parseJsonSafe] leave it: a 401
    runs [onUnauthorized] (here [clearToken]) and throws. *)
Definition request {T : Type} (o : HttpOutcome T) (h : Host) : result (option T) * Host :=
  match o with
  | Http401 => (Throw "AuthError", clearToken h)
  | HttpNotOk m => (Throw m, h)
  | HttpBody b => (Ok b, h)
  end.

(** [login(identifier, password)] once the request has met [o], at the
    clock reading [now]. *)
Definition login `{Runtime} (now : Z) (o : HttpOutcome LoginEnvelope) (h : Host)
  : result LoginData * Host :=
  match request o h with
  | (Throw m, h1) => (Throw m, h1)
  | (Ok env, h1) =>
      match env with
      | Some {| success := true; data := Some d |} =>
          let h2 := setRefreshToken (d_refreshToken d) (setToken (d_accessToken d) h1) in
          let h3 :=
            match document h2 with
            | None => h2
            | Some jar =>
                {| window := window h2;
                   document :=
                     Some (foldl (fun j w => write_cookie w j) jar
                             (login_writes now (d_accessToken d) (d_refreshToken d))) |}
            end in
          (Ok {| d_accessToken := d_accessToken d; d_refreshToken := d_refreshToken d;
                 d_user := d_user d |}, h3)
      | _ => (Throw USER_MESSAGES.LOGIN_ERROR, h1)
      end
  end.

(** The first of the two assignments [login] makes to [document.cookie]. *)
Definition access_write `{Runtime} (now : Z) (a : string) : CookieWrite :=
  {| w_name := TOKENS.ACCESS; w_value := encodeURIComponent a; w_path := "/";
     w_maxAge := login_maxAge now a; w_sameSite := "Lax" |}.

(** [HttpClient.headers(json)] with the service's [getToken]: the own
    properties of the object it returns, in the order they are set. *)
Definition headers (json : bool) (h : Host) : list (string * string) :=
  let authorization :=
    match getToken h with
    | Some t => if String.eqb t "" then [] else [("Authorization", "Bearer " ++ t)]
    | None => []
    end in
  (authorization ++ (if json then [("Content-Type", "application/json")] else []))%list.

(** [getMe()] once the request has met [o]. *)
Definition getMe {T : Type} (o : HttpOutcome T) (h : Host) : result T * Host :=
  match request o h with
  | (Ok (Some me), h1) => (Ok me, h1)
  | (Ok None, h1) => (Throw USER_MESSAGES.PROFILE_LOAD_ERROR, h1)
  | (Throw m, h1) => (Throw m, h1)
  end.

(** What [load] resolves to: [{ user }] or [{ user: null, redirectTo }]. *)
Record Loaded (T : Type) : Type := {
  l_user : option T;
  redirectTo : option string;
}.
Arguments l_user {T} _.
Arguments redirectTo {T} _.

(** [load()]: the profile request is made only with a token in store, and
    [o] is what it meets then. *)
Definition load {T : Type} (o : HttpOutcome T) (h : Host) : result (Loaded T) * Host :=
  if negb (isAuthenticated h)
  then (Ok {| l_user := None; redirectTo := Some PAGE_LINKS.LOGIN |}, h)
  else
    match getMe o h with
    | (Ok me, h1) => (Ok {| l_user := Some me; redirectTo := None |}, h1)
    | (Throw m, h1) => (Throw m, h1)
    end.

(** One run of [observeToken]: its closure variable [last] and the calls
    it has made to [callback], oldest first. *)
Record Observer : Type := {
  last : option string;
  calls : list (option string);
}.

(** [last = v; callback(last)]. *)
Definition notify (v : option string) (o : Observer) : Observer :=
  {| last := v; calls := (calls o ++ [v])%list |}.

(** The [onStorage] listener on a storage event with the given [key] and
    [newValue] ([None] is [null]). *)
Definition onStorage (key newValue : option string) (o : Observer) : Observer :=
  if bool_decide (key = Some TOKENS.ACCESS) then notify newValue o else o.

(** The interval callback, on the host as it is when the timer fires. *)
Definition poll (h : Host) (o : Observer) : Observer :=
  if bool_decide (getToken h = last o) then o else notify (getToken h) o.

(** The observer as [observeToken] starts it: [last] is the token in
    store and the callback has been called with it. *)
Definition started (h : Host) : Observer :=
  {| last := getToken h; calls := [getToken h] |}.

(** What reaches an observer: a storage event, or a tick of its interval
    on the host as it is then. *)
Inductive WatchEvent : Type :=
| StorageEvent (key newValue : option string)
| Tick (h : Host).

Definition watch_step (o : Observer) (e : WatchEvent) : Observer :=
  match e with
  | StorageEvent key newValue => onStorage key newValue o
  | Tick h => poll h o
  end.

Definition is_tick (e : WatchEvent) : bool :=
  match e with
  | Tick _ => true
  | StorageEvent _ _ => false
  end.

(** No two neighbours of a list are equal. *)
Fixpoint changes_only (l : list (option string)) : bool :=
  match l with
  | a :: (b :: _) as rest => negb (bool_decide (a = b)) && changes_only rest
  | _ => true
  end.

(** The window's and the service's part in [observeToken]: the storage
    listeners and the interval timers that are registered, each named by
    the handle [setInterval] gave the run that registered it, the next
    handle, the service's one field [tokenWatchTimer], and the observers by
    handle. *)
Record Watchers : Type := {
  tokenWatchTimer : option positive;
  listeners : gset positive;
  intervals : gset positive;
  nextHandle : positive;
  observers : gmap positive Observer;
}.

(** [observeToken(callback)]: [None] for the [undefined] it returns
    without a [window], the handle of the run otherwise. *)
Definition observeToken (h : Host) (w : Watchers) : option positive * Watchers :=
  match window h with
  | None => (None, w)
  | Some _ =>
      let k := nextHandle w in
      (Some k,
       {| tokenWatchTimer := Some k;
          listeners := {[k]} ∪ listeners w;
          intervals := {[k]} ∪ intervals w;
          nextHandle := (k + 1)%positive;
          observers := <[k := started h]> (observers w) |})
  end.

(** The function the run [k] returned: it removes the run's own listener
    and clears the timer the service's field names. *)
Definition unsubscribe (k : positive) (w : Watchers) : Watchers :=
  {| tokenWatchTimer := None;
     listeners := listeners w ∖ {[k]};
     intervals :=
       match tokenWatchTimer w with
       | Some t => intervals w ∖ {[t]}
       | None => intervals w
       end;
     nextHandle := nextHandle w;
     observers := observers w |}.

(** The window delivers a storage event to every registered listener. *)
Definition deliver_storage (key newValue : option string) (w : Watchers) : Watchers :=
  {| tokenWatchTimer := tokenWatchTimer w;
     listeners := listeners w;
     intervals := intervals w;
     nextHandle := nextHandle w;
     observers :=
       map_imap (fun k o => Some (if bool_decide (k ∈ listeners w)
                                  then onStorage key newValue o else o))
         (observers w) |}.

(** The timer [t] fires, if it is registered, on the host [h]. *)
Definition deliver_tick (t : positive) (h : Host) (w : Watchers) : Watchers :=
  {| tokenWatchTimer := tokenWatchTimer w;
     listeners := listeners w;
     intervals := intervals w;
     nextHandle := nextHandle w;
     observers :=
       if bool_decide (t ∈ intervals w) then alter (poll h) t (observers w)
       else observers w |}.

(** The cookies a browser sends with a request: every cookie the document
    holds, by name, with its value as it was written. *)
Definition sent_cookies (h : Host) : gmap string string :=
  match document h with
  | Some jar => value <$> jar
  | None => ∅
  end.

(* ===================================================================== *)
(** * Signed tokens ([lib/jwt.ts] over the jsonwebtoken package) *)
(* ===================================================================== *)

(** [obj[key] = v] on an object literal: an own property keeps its
    place, a new one goes last. *)
Fixpoint obj_set (key : string) (v : json) (fs : list (string * json))
  : list (string * json) :=
  match fs with
  | [] => [(key, v)]
  | (k, old) :: rest =>
      if String.eqb k key then (k, v) :: rest else (k, old) :: obj_set key v rest
  end.

(** The header the package writes for [algorithm: 'HS256']. *)
Definition jwt_header : json := JObj [("alg", JStr "HS256"); ("typ", JStr "JWT")].

(** One segment of the compact form. *)
Definition segment `{Runtime} (v : json) : string := base64url (JSON_stringify v).

(** The claims [jwt.sign] signs: the payload with [iat] and [exp]. *)
Definition signed_claims (now : Z) (payload : list (string * json)) (expiresIn : Z)
  : list (string * json) :=
  obj_set "exp" (JNum (seconds now + expiresIn))
    (obj_set "iat" (JNum (seconds now)) payload).

(** [jwt.sign(payload, secret, { algorithm: 'HS256', expiresIn })] for a
    whole number of seconds, at the clock reading [now]. *)
Definition jwt_sign `{Runtime} (now : Z) (payload : list (string * json))
    (secret : string) (expiresIn : Z) : string :=
  let input :=
    segment jwt_header ++ "." ++ segment (JObj (signed_claims now payload expiresIn)) in
  input ++ "." ++ HS256 secret input.

(** The characters of a segment: letters, digits, [-] and [_]. *)
Definition b64url_char (c : ascii) : bool :=
  let n := N_of_ascii c in
  ((48 <=? n) && (n <=? 57) || (65 <=? n) && (n <=? 90)
   || (97 <=? n) && (n <=? 122) || (n =? 45) || (n =? 95))%N.

Fixpoint b64url_string (s : string) : bool :=
  match s with
  | EmptyString => true
  | String c rest => b64url_char c && b64url_string rest
  end.

(** The package's test of the compact form: a header and a payload that
    are not empty, every segment in the alphabet. *)
Definition valid_compact (h p s : string) : bool :=
  negb (String.eqb h "") && negb (String.eqb p "")
  && b64url_string h && b64url_string p && b64url_string s.

(** The time checks of [jwt.verify]: [nbf], then [exp], each against the
    verifier's clock with no tolerance; [None] when both pass. *)
Definition check_nbf (now : Z) (payload : json) : option string :=
  match prop "nbf" payload with
  | None => None
  | Some (JNum nbf) => if seconds now <? nbf then Some "jwt not active" else None
  | Some _ => Some "invalid nbf value"
  end.

Definition check_exp (now : Z) (payload : json) : option string :=
  match prop "exp" payload with
  | None => None
  | Some (JNum e) => if e <=? seconds now then Some "jwt expired" else None
  | Some _ => Some "invalid exp value"
  end.

(** [jwt.verify(token, secret, { algorithms })] at the clock reading
    [now]: structure, algorithm, signature, then the time checks.  A
    payload that is no JSON text is refused, as the package refuses it in
    a token of type JWT, the type [jwt.sign] writes. *)
Definition jwt_verify `{Runtime} (now : Z) (token secret : string)
    (algorithms : list string) : result json :=
  let parts := split "." token in
  if negb (Nat.eqb (length parts) 3) then Throw "jwt malformed"
  else
    let h := nth 0 parts "" in
    let p := nth 1 parts "" in
    let s := nth 2 parts "" in
    if negb (valid_compact h p s) then Throw "invalid token"
    else
      match JSON_parse (base64_to_utf8 h), JSON_parse (base64_to_utf8 p) with
      | Some header, Some payload =>
          if String.eqb s "" then Throw "jwt signature is required"
          else
            match prop "alg" header with
            | Some (JStr alg) =>
                if negb (existsb (String.eqb alg) algorithms) then Throw "invalid algorithm"
                else if negb (String.eqb alg "HS256") then Throw "invalid algorithm"
                else if negb (String.eqb (HS256 secret (h ++ "." ++ p)) s)
                then Throw "invalid signature"
                else
                  match payload with
                  | JNull => Throw "TypeError"
                  | _ =>
                      match check_nbf now payload with
                      | Some e => Throw e
                      | None =>
                          match check_exp now payload with
                          | Some e => Throw e
                          | None => Ok payload
                          end
                      end
                  end
            | _ => Throw "invalid algorithm"
            end
      | _, _ => Throw "invalid token"
      end.

(** What the token round trip asks of a host: decoding undoes encoding,
    parsing undoes printing, segments and signatures are written in the
    URL alphabet and are not empty. *)
Class RuntimeLaws (R : Runtime) : Prop := {
  base64_roundtrip : forall s, base64_to_utf8 (base64url s) = s;
  JSON_roundtrip : forall v, JSON_parse (JSON_stringify v) = Some v;
  base64url_alphabet : forall s, b64url_string (base64url s) = true;
  base64url_nonempty : forall s, base64url s = "" -> s = "";
  JSON_stringify_nonempty : forall v, JSON_stringify v <> "";
  HS256_alphabet : forall key msg, b64url_string (HS256 key msg) = true;
  HS256_nonempty : forall key msg, HS256 key msg <> "";
}.

(** The events a request leaves behind, in order. *)
Inductive Event : Type :=
| DbFindFirst (identifier : string)
| BcryptCompare (plain hash : string)
| JwtSign (secret : string)
| LogWarn (msg : string).

(** The secret-hash comparisons among some events: the plain text and the
    hash of each, in order. *)
Definition compares (t : list Event) : list (string * string) :=
  flat_map (fun e => match e with
                     | BcryptCompare plain hash => [(plain, hash)]
                     | _ => []
                     end) t.

(** Server code: the events it made and its result. *)
Definition M (A : Type) : Type := (list Event * result A)%type.

Definition ret {A : Type} (a : A) : M A := ([], Ok a).

Definition throw {A : Type} (msg : string) : M A := ([], Throw msg).

Definition emit (e : Event) : M unit := ([e], Ok tt).

Definition bind {A B : Type} (m : M A) (k : A -> M B) : M B :=
  match m with
  | (t, Ok a) => let (t', r) := k a in ((t ++ t')%list, r)
  | (t, Throw msg) => (t, Throw msg)
  end.

Notation "x <- m ;; k" := (bind m (fun x => k))
  (at level 100, m at next level, right associativity).

(** [signJwt(payload, secret, ttl)]: the promise rejects when [ttl] gives
    no whole number of seconds. *)
Definition signJwt `{Runtime} (now : Z) (payload : list (string * json))
    (secret ttl : string) : M string :=
  match ms ttl with
  | None => throw "expiresIn"
  | Some d =>
      _ <- emit (JwtSign secret) ;;
      ret (jwt_sign now payload secret (d / 1000))
  end.

(** [verifyJwt(token, secret)]. *)
Definition verifyJwt `{Runtime} (now : Z) (token secret : string) : result json :=
  jwt_verify now token secret ["HS256"].

(** The text [jwt.sign] signs: header and claims, each in its segment. *)
Definition signing_input `{Runtime} (now : Z) (payload : list (string * json))
    (expiresIn : Z) : string :=
  segment jwt_header ++ "." ++ segment (JObj (signed_claims now payload expiresIn)).


(* ===================================================================== *)
(** * Credential check and token issuing ([services/auth.service.ts]) *)
(* ===================================================================== *)

(** The part of [CONFIG] the service reads. *)
Record Config : Type := {
  JWT_ACCESS_SECRET : string;
  JWT_REFRESH_SECRET : string;
  JWT_ACCESS_TTL : string;
  JWT_REFRESH_TTL : string;
}.

Record DbUser : Type := {
  u_id : string;
  u_name : string;
  u_username : string;
  u_email : string;
  u_password : string;
}.

Record PublicUser : Type := {
  p_id : string;
  p_name : string;
  p_username : string;
  p_email : string;
}.

Record AuthResult : Type := {
  user : option PublicUser;
  accessToken : option string;
  refreshToken : option string;
}.

Definition DUMMY_HASH : string :=
  "$2a$10$JtqYvZbqvB4QzqK4gl0m9e8cZ7pK9D5T1f2o7Q8c5rV5SgU8V5hA2".

(** The [where] clause of the lookup: the username equals the identifier,
    or, for an identifier with an [@], the email equals its lower case. *)
Definition matches `{Runtime} (identifier : string) (u : DbUser) : bool :=
  let isEmail := includes "@" identifier in
  String.eqb (u_username u) identifier
  || (if isEmail then String.eqb (u_email u) (toLowerCase identifier)
      else String.eqb (u_username u) "__nope__").

(** The lookup as the service describes it: by email, in lower case, for
    an identifier with an [@], by username for any other. *)
Definition by_username_or_email `{Runtime} (identifier : string) (u : DbUser) : bool :=
  if includes "@" identifier then String.eqb (u_email u) (toLowerCase identifier)
  else String.eqb (u_username u) identifier.

(** [db.query.users.findFirst] over the rows of the table. *)
Definition findFirst `{Runtime} (db : list DbUser) (identifier : string)
  : M (option DbUser) :=
  _ <- emit (DbFindFirst identifier) ;;
  ret (find (matches identifier) db).

(** [bcrypt.compare] as an event and its answer. *)
Definition compare `{Runtime} (plain hash : string) : M bool :=
  _ <- emit (BcryptCompare plain hash) ;;
  ret (bcrypt_compare plain hash).

(** The result of a failed authentication: [{ user: null }]. *)
Definition no_user : AuthResult :=
  {| user := None; accessToken := None; refreshToken := None |}.

Definition publicUser (row : DbUser) : PublicUser :=
  {| p_id := u_id row; p_name := u_name row; p_username := u_username row;
     p_email := u_email row |}.

(** The payloads of the two tokens. *)
Definition access_payload (row : DbUser) : list (string * json) :=
  [("sub", JStr (u_id row)); ("username", JStr (u_username row))].

Definition refresh_payload (row : DbUser) : list (string * json) :=
  [("sub", JStr (u_id row)); ("type", JStr "refresh")].

(** [authenticate(identifier, password)] over the table [db], at the
    clock reading [now]. *)
Definition authenticate `{Runtime} (cfg : Config) (db : list DbUser) (now : Z)
    (identifier password : string) : M AuthResult :=
  row <- findFirst db identifier ;;
  let hashToCheck :=
    match row with
    | Some r => u_password r
    | None => DUMMY_HASH
    end in
  ok <- compare password hashToCheck ;;
  match row with
  | Some r =>
      if negb ok then ret no_user
      else
        accessToken <-
          signJwt now (access_payload r) (JWT_ACCESS_SECRET cfg) (JWT_ACCESS_TTL cfg) ;;
        refreshToken <-
          signJwt now (refresh_payload r) (JWT_REFRESH_SECRET cfg) (JWT_REFRESH_TTL cfg) ;;
        ret {| user := Some (publicUser r); accessToken := Some accessToken;
               refreshToken := Some refreshToken |}
  | None => ret no_user
  end.

(** The round trip as the specification words it, for a run of
    [authenticate] that issues tokens: the access token verifies under the
    access secret, the subject of its claims is the identity of the user,
    and the claim [key] (the token class) says ["access"]. *)
Definition roundtrip_as_specified `{Runtime} (key : string) (cfg : Config)
    (db : list DbUser) (now : Z) (identifier password : string) : Prop :=
  forall r u tok,
    snd (authenticate cfg db now identifier password) = Ok r ->
    user r = Some u -> accessToken r = Some tok ->
    exists claims,
      verifyJwt now tok (JWT_ACCESS_SECRET cfg) = Ok claims
      /\ prop "sub" claims = Some (JStr (p_id u))
      /\ prop key claims = Some (JStr "access").

(* ===================================================================== *)
(** * The login endpoint ([routes/auth.route.ts]) *)
(* ===================================================================== *)

Record LoginBody : Type := {
  identifier : string;
  password : string;
}.

(** A request as the handler sees it: [validationError] is set when the
    body failed the route's schema, and the body is then not read. *)
Record LoginReq : Type := {
  validationError : option string;
  body : LoginBody;
}.

(** The two bodies the handler sends. *)
Inductive ReplyBody : Type :=
| Failure (error : string)
| Success (data : AuthResult).

Record Reply : Type := {
  code : Z;
  sent : ReplyBody;
}.

(** The handler of [POST /api/auth/login], for a request that reaches it
    (the route's rate limiter answers before the handler runs). *)
Definition login_handler `{Runtime} (cfg : Config) (db : list DbUser) (now : Z)
    (r : LoginReq) : M Reply :=
  match validationError r with
  | Some _ =>
      _ <- emit (LogWarn "Login schema failed") ;;
      ret {| code := 401; sent := Failure RESPONSE_TEXTS.INVALID_CREDENTIALS |}
  | None =>
      result <- authenticate cfg db now (identifier (body r)) (password (body r)) ;;
      if negb (bool_decide (is_Some (user result)))
         || negb (nonempty (accessToken result))
         || negb (nonempty (refreshToken result))
      then ret {| code := 401; sent := Failure RESPONSE_TEXTS.INVALID_CREDENTIALS |}
      else ret {| code := 200; sent := Success result |}
  end.

(* ===================================================================== *)
(** * The guard of the private routes ([middleware/auth.ts]) *)
(* ===================================================================== *)

(** [s.slice(n)] for a count [n] of characters. *)
Fixpoint slice (n : nat) (s : string) : string :=
  match n, s with
  | O, _ => s
  | S _, EmptyString => EmptyString
  | S n', String _ rest => slice n' rest
  end.

(** What the guard leaves: a reply that ends the request, or the request
    going on to its handler with [req.userId] set. *)
Inductive Guarded : Type :=
| Rejected (code : Z) (message : string)
| Authorized (userId : json).

(** [authGuard(req, reply)] for the [Authorization] header of the request
    ([None] when it has none), at the clock reading [now]. *)
Definition authGuard `{Runtime} (cfg : Config) (now : Z) (authorization : option string)
  : Guarded :=
  let h := default "" authorization in
  let token := if startsWith "Bearer " h then Some (slice 7 h) else None in
  match token with
  | None => Rejected 401 RESPONSE_TEXTS.UNAUTHORIZED
  | Some t =>
      if String.eqb t "" then Rejected 401 RESPONSE_TEXTS.UNAUTHORIZED
      else
        match verifyJwt now t (JWT_ACCESS_SECRET cfg) with
        | Ok payload =>
            match prop "sub" payload with
            | Some sub =>
                if truthy (Some sub) then Authorized sub
                else Rejected 401 RESPONSE_TEXTS.UNAUTHORIZED
            | None => Rejected 401 RESPONSE_TEXTS.UNAUTHORIZED
            end
        | Throw _ => Rejected 401 RESPONSE_TEXTS.UNAUTHORIZED
        end
  end.

(* ===================================================================== *)
(** * From the server through the browser to the gate *)
(* ===================================================================== *)

(** The characters of a token in its compact form: the URL alphabet and
    the dot. *)
Fixpoint compact_text (s : string) : bool :=
  match s with
  | EmptyString => true
  | String c rest => (b64url_char c || Ascii.eqb c ".") && compact_text rest
  end.

(** What carrying a token from the server through the browser to the gate
    asks of a host: [Buffer]'s base64 decoder reads the URL alphabet as it
    reads the standard one, and [encodeURIComponent] leaves the characters
    of a token as they are. *)
Class BrowserLaws (R : Runtime) : Prop := {
  base64_either_alphabet :
    forall s, base64_to_utf8 (replaceAll "_" "/" (replaceAll "-" "+" s)) = base64_to_utf8 s;
  encodeURIComponent_token :
    forall s, compact_text s = true -> encodeURIComponent s = s;
}.

(* ===================================================================== *)
(** * A reference host *)
(* ===================================================================== *)

(** A host to run the model on: base64 over bytes, compact JSON over
    integers (escapes for the quote and the backslash only), and stand-ins
    for the two cryptographic functions.  It is one instance of [Runtime];
    the laws the token round trip needs ([RuntimeLaws]) are proved of it
    below. *)

Definition sextet : Type := (bool * bool * bool * bool * bool * bool)%type.

(** The value of a sextet, most significant bit first. *)
Definition sextet_value (x : sextet) : N :=
  let '(b5, b4, b3, b2, b1, b0) := x in
  (N.b2n b5 * 32 + N.b2n b4 * 16 + N.b2n b3 * 8 + N.b2n b2 * 4 + N.b2n b1 * 2 + N.b2n b0)%N.

(** The URL alphabet: [A-Z a-z 0-9 - _]. *)
Definition sextet_char (x : sextet) : ascii :=
  let n := sextet_value x in
  if (n <? 26)%N then ascii_of_N (n + 65)
  else if (n <? 52)%N then ascii_of_N (n + 71)
  else if (n <? 62)%N then ascii_of_N (n - 4)
  else if (n =? 62)%N then "-"%char
  else "_"%char.

Definition sextet_of_N (n : N) : sextet :=
  (N.testbit n 5, N.testbit n 4, N.testbit n 3, N.testbit n 2, N.testbit n 1,
   N.testbit n 0).

(** The sextet of a character of either alphabet ([+] and [-] are 62,
    [/] and [_] are 63). *)
Definition char_sextet (c : ascii) : option sextet :=
  let n := N_of_ascii c in
  if ((65 <=? n) && (n <=? 90))%N then Some (sextet_of_N (n - 65))
  else if ((97 <=? n) && (n <=? 122))%N then Some (sextet_of_N (n - 71))
  else if ((48 <=? n) && (n <=? 57))%N then Some (sextet_of_N (n + 4))
  else if ((n =? 45) || (n =? 43))%N then Some (sextet_of_N 62)
  else if ((n =? 95) || (n =? 47))%N then Some (sextet_of_N 63)
  else None.

Definition sextet_or_zero (c : ascii) : sextet :=
  default (false, false, false, false, false, false) (char_sextet c).

(** Bytes to the URL alphabet, three at a time, without padding. *)
Fixpoint ref_base64url (s : string) : string :=
  match s with
  | EmptyString => EmptyString
  | String (Ascii a0 a1 a2 a3 a4 a5 a6 a7) EmptyString =>
      String (sextet_char (a7, a6, a5, a4, a3, a2))
        (String (sextet_char (a1, a0, false, false, false, false)) EmptyString)
  | String (Ascii a0 a1 a2 a3 a4 a5 a6 a7)
      (String (Ascii b0 b1 b2 b3 b4 b5 b6 b7) EmptyString) =>
      String (sextet_char (a7, a6, a5, a4, a3, a2))
        (String (sextet_char (a1, a0, b7, b6, b5, b4))
           (String (sextet_char (b3, b2, b1, b0, false, false)) EmptyString))
  | String (Ascii a0 a1 a2 a3 a4 a5 a6 a7)
      (String (Ascii b0 b1 b2 b3 b4 b5 b6 b7)
         (String (Ascii c0 c1 c2 c3 c4 c5 c6 c7) rest)) =>
      String (sextet_char (a7, a6, a5, a4, a3, a2))
        (String (sextet_char (a1, a0, b7, b6, b5, b4))
           (String (sextet_char (b3, b2, b1, b0, c7, c6))
              (String (sextet_char (c5, c4, c3, c2, c1, c0)) (ref_base64url rest))))
  end.

(** Characters of either alphabet back to bytes, four at a time; bits
    that fill no byte are dropped. *)
Fixpoint sextets_to_bytes (s : string) : string :=
  match s with
  | EmptyString => EmptyString
  | String _ EmptyString => EmptyString
  | String x (String y EmptyString) =>
      let '(a7, a6, a5, a4, a3, a2) := sextet_or_zero x in
      let '(a1, a0, _, _, _, _) := sextet_or_zero y in
      String (Ascii a0 a1 a2 a3 a4 a5 a6 a7) EmptyString
  | String x (String y (String z EmptyString)) =>
      let '(a7, a6, a5, a4, a3, a2) := sextet_or_zero x in
      let '(a1, a0, b7, b6, b5, b4) := sextet_or_zero y in
      let '(b3, b2, b1, b0, _, _) := sextet_or_zero z in
      String (Ascii a0 a1 a2 a3 a4 a5 a6 a7)
        (String (Ascii b0 b1 b2 b3 b4 b5 b6 b7) EmptyString)
  | String x (String y (String z (String w rest))) =>
      let '(a7, a6, a5, a4, a3, a2) := sextet_or_zero x in
      let '(a1, a0, b7, b6, b5, b4) := sextet_or_zero y in
      let '(b3, b2, b1, b0, c7, c6) := sextet_or_zero z in
      let '(c5, c4, c3, c2, c1, c0) := sextet_or_zero w in
      String (Ascii a0 a1 a2 a3 a4 a5 a6 a7)
        (String (Ascii b0 b1 b2 b3 b4 b5 b6 b7)
           (String (Ascii c0 c1 c2 c3 c4 c5 c6 c7) (sextets_to_bytes rest)))
  end.

Fixpoint keep (f : ascii -> bool) (s : string) : string :=
  match s with
  | EmptyString => EmptyString
  | String c rest => if f c then String c (keep f rest) else keep f rest
  end.

Fixpoint every (f : ascii -> bool) (s : string) : bool :=
  match s with
  | EmptyString => true
  | String c rest => f c && every f rest
  end.

(** [Buffer.from(s, 'base64')]: characters outside both alphabets
    (padding included) are skipped. *)
Definition ref_base64_to_utf8 (s : string) : string :=
  sextets_to_bytes (keep (fun c => bool_decide (is_Some (char_sextet c))) s).

(** The standard alphabet: [A-Z a-z 0-9 + /]. *)
Definition std_char (c : ascii) : bool :=
  let n := N_of_ascii c in
  ((65 <=? n) && (n <=? 90) || (97 <=? n) && (n <=? 122) || (48 <=? n) && (n <=? 57)
   || (n =? 43) || (n =? 47))%N.

(** [s] without one or two [=] at its end. *)
Fixpoint strip_padding (s : string) : string :=
  match s with
  | String "=" EmptyString => EmptyString
  | String "=" (String "=" EmptyString) => EmptyString
  | String c rest => String c (strip_padding rest)
  | EmptyString => EmptyString
  end.

(** [atob]: padding is dropped from a text whose length is a multiple of
    four; a character outside the standard alphabet or a length of one
    more than a multiple of four throws. *)
Definition ref_atob (s : string) : option string :=
  let t := if Nat.eqb (String.length s mod 4) 0 then strip_padding s else s in
  if every std_char t && negb (Nat.eqb (String.length t mod 4) 1)
  then Some (sextets_to_bytes t)
  else None.

(** The quote and the backslash. *)
Definition dquote : ascii := "034"%char.
Definition backslash : ascii := "092"%char.

Definition needs_escape (c : ascii) : bool := Ascii.eqb c dquote || Ascii.eqb c backslash.

(** The inside of a JSON string. *)
Fixpoint escape (s : string) : string :=
  match s with
  | EmptyString => EmptyString
  | String c rest =>
      if needs_escape c then String backslash (String c (escape rest))
      else String c (escape rest)
  end.

Definition quote (s : string) : string := String dquote (escape s ++ String dquote "").

(** The text up to the closing quote, unescaped, and what follows it. *)
Fixpoint unescape (s : string) : option (string * string) :=
  match s with
  | EmptyString => None
  | String c rest =>
      if Ascii.eqb c dquote then Some (EmptyString, rest)
      else if Ascii.eqb c backslash then
        match rest with
        | String d rest' =>
            if needs_escape d then
              match unescape rest' with
              | Some (t, after) => Some (String d t, after)
              | None => None
              end
            else None
        | EmptyString => None
        end
      else
        match unescape rest with
        | Some (t, after) => Some (String c t, after)
        | None => None
        end
  end.

(** An integer in decimal. *)
Definition print_Z (z : Z) : string := NilEmpty.string_of_int (Z.to_int z).

Definition is_num_char (c : ascii) : bool :=
  let n := N_of_ascii c in ((n =? 45) || (48 <=? n) && (n <=? 57))%N.

Fixpoint span_num (s : string) : string * string :=
  match s with
  | EmptyString => (EmptyString, EmptyString)
  | String c rest =>
      if is_num_char c then let (t, after) := span_num rest in (String c t, after)
      else (EmptyString, s)
  end.

(** An integer in its one decimal form ([0], no leading zero, no [-0]). *)
Definition parse_number (s : string) : option (json * string) :=
  let (t, after) := span_num s in
  match NilEmpty.int_of_string t with
  | Some d =>
      if String.eqb (print_Z (Z.of_int d)) t then Some (JNum (Z.of_int d), after)
      else None
  | None => None
  end.

Fixpoint strip_prefix (p s : string) : option string :=
  match p, s with
  | EmptyString, _ => Some s
  | String _ _, EmptyString => None
  | String a p', String b s' => if Ascii.eqb a b then strip_prefix p' s' else None
  end.

(** The elements of an array after its opening bracket, and the members
    of an object after its opening brace. *)
Definition items_text (pr : json -> string) : list json -> string :=
  fix go (l : list json) : string :=
    match l with
    | [] => "]"
    | x :: rest =>
        pr x ++ match rest with
                | [] => "]"
                | _ :: _ => String "," (go rest)
                end
    end.

Definition members_text (pr : json -> string) : list (string * json) -> string :=
  fix go (l : list (string * json)) : string :=
    match l with
    | [] => "}"
    | kx :: rest =>
        quote (fst kx) ++ String ":" (pr (snd kx) ++
          match rest with
          | [] => "}"
          | _ :: _ => String "," (go rest)
          end)
    end.

(** Compact JSON text. *)
Fixpoint print (v : json) : string :=
  match v with
  | JNull => "null"
  | JBool true => "true"
  | JBool false => "false"
  | JNum n => print_Z n
  | JStr s => quote s
  | JArr items => String "[" (items_text print items)
  | JObj fields => String "{" (members_text print fields)
  end.

(** A value at the head of a text and what follows it.  [fuel] bounds the
    nesting. *)
Fixpoint parse_value (fuel : nat) (s : string) : option (json * string) :=
  match fuel with
  | O => None
  | S fuel =>
      match s with
      | EmptyString => None
      | String c rest =>
          if is_num_char c then parse_number s
          else if Ascii.eqb c dquote then
            match unescape rest with
            | Some (t, after) => Some (JStr t, after)
            | None => None
            end
          else if Ascii.eqb c "[" then
            match rest with
            | EmptyString => None
            | String c' after =>
                if Ascii.eqb c' "]" then Some (JArr [], after)
                else
                  match parse_items fuel rest with
                  | Some (l, after') => Some (JArr l, after')
                  | None => None
                  end
            end
          else if Ascii.eqb c "{" then
            match rest with
            | EmptyString => None
            | String c' after =>
                if Ascii.eqb c' "}" then Some (JObj [], after)
                else
                  match parse_members fuel rest with
                  | Some (l, after') => Some (JObj l, after')
                  | None => None
                  end
            end
          else
            match strip_prefix "null" s, strip_prefix "true" s, strip_prefix "false" s with
            | Some after, _, _ => Some (JNull, after)
            | _, Some after, _ => Some (JBool true, after)
            | _, _, Some after => Some (JBool false, after)
            | _, _, _ => None
            end
      end
  end
with parse_items (fuel : nat) (s : string) : option (list json * string) :=
  match fuel with
  | O => None
  | S fuel =>
      match parse_value fuel s with
      | Some (x, String c after) =>
          if Ascii.eqb c "," then
            match parse_items fuel after with
            | Some (l, after') => Some (x :: l, after')
            | None => None
            end
          else if Ascii.eqb c "]" then Some ([x], after)
          else None
      | _ => None
      end
  end
with parse_members (fuel : nat) (s : string) : option (list (string * json) * string) :=
  match fuel with
  | O => None
  | S fuel =>
      match s with
      | EmptyString => None
      | String c rest =>
          if Ascii.eqb c dquote then
            match unescape rest with
            | Some (k, String c' after) =>
                if Ascii.eqb c' ":" then
                  match parse_value fuel after with
                  | Some (x, String c'' after') =>
                      if Ascii.eqb c'' "," then
                        match parse_members fuel after' with
                        | Some (l, after'') => Some ((k, x) :: l, after'')
                        | None => None
                        end
                      else if Ascii.eqb c'' "}" then Some ([(k, x)], after')
                      else None
                  | _ => None
                  end
                else None
            | _ => None
            end
          else None
      end
  end.

(** Fuel that suffices to parse the text of a value. *)
Definition items_weight (w : json -> nat) : list json -> nat :=
  fix go (l : list json) : nat :=
    match l with
    | [] => O
    | x :: rest => S (Nat.max (w x) (go rest))
    end.

Definition members_weight (w : json -> nat) : list (string * json) -> nat :=
  fix go (l : list (string * json)) : nat :=
    match l with
    | [] => O
    | kx :: rest => S (Nat.max (w (snd kx)) (go rest))
    end.

Fixpoint weight (v : json) : nat :=
  match v with
  | JArr items => S (items_weight weight items)
  | JObj fields => S (members_weight weight fields)
  | _ => 1%nat
  end.

(** A text after which a number ends: empty, or starting with a character
    that is no part of a number. *)
Definition ends_number (rest : string) : bool :=
  match rest with
  | EmptyString => true
  | String c _ => negb (is_num_char c)
  end.

(** The parser reads a printed value back, whatever follows it. *)
Definition parses (v : json) : Prop :=
  forall fuel rest, (weight v <= fuel)%nat -> ends_number rest = true ->
    parse_value fuel (print v ++ rest) = Some (v, rest).

Definition ref_JSON_parse (s : string) : option json :=
  match parse_value (S (String.length s)) s with
  | Some (v, EmptyString) => Some v
  | _ => None
  end.

(** [ToNumber] on a string of decimal digits; other strings, arrays and
    objects give [NaN] here. *)
Definition ref_coerce (v : json) : number :=
  match v with
  | JStr s =>
      match parse_number s with
      | Some (JNum n, EmptyString) => Fin n
      | _ => NaN
      end
  | _ => NaN
  end.

Definition hex_digit (n : N) : ascii :=
  if (n <? 10)%N then ascii_of_N (n + 48) else ascii_of_N (n + 55).

Definition unreserved (c : ascii) : bool :=
  let n := N_of_ascii c in
  ((65 <=? n) && (n <=? 90) || (97 <=? n) && (n <=? 122) || (48 <=? n) && (n <=? 57)
   || (n =? 45) || (n =? 95) || (n =? 46) || (n =? 33) || (n =? 126) || (n =? 42)
   || (n =? 39) || (n =? 40) || (n =? 41))%N.

(** [encodeURIComponent] over bytes. *)
Fixpoint ref_encodeURIComponent (s : string) : string :=
  match s with
  | EmptyString => EmptyString
  | String c rest =>
      if unreserved c then String c (ref_encodeURIComponent rest)
      else
        let n := N_of_ascii c in
        String "%" (String (hex_digit (n / 16)) (String (hex_digit (n mod 16))
          (ref_encodeURIComponent rest)))
  end.

(** [toLowerCase] over the ASCII letters. *)
Fixpoint ref_toLowerCase (s : string) : string :=
  match s with
  | EmptyString => EmptyString
  | String c rest =>
      let n := N_of_ascii c in
      String (if ((65 <=? n) && (n <=? 90))%N then ascii_of_N (n + 32) else c)
        (ref_toLowerCase rest)
  end.

(** A stand-in for bcrypt: the hash of a password is the password in
    base64 behind a fixed prefix. *)
Definition ref_hash (plain : string) : string := "$ref$" ++ ref_base64url plain.

Definition ref_bcrypt_compare (plain hash : string) : bool :=
  String.eqb (ref_hash plain) hash.

(** A stand-in for HMAC-SHA-256: key and message in base64. *)
Definition ref_HS256 (key msg : string) : string :=
  ref_base64url ("mac:" ++ key ++ ":" ++ msg).

(** The [ms] package on a digit string with a unit. *)
Definition ref_ms (s : string) : option Z :=
  let (t, unit) := span_num s in
  match parse_number t with
  | Some (JNum n, EmptyString) =>
      if String.eqb unit "ms" || String.eqb unit "" then Some n
      else if String.eqb unit "s" then Some (n * 1000)
      else if String.eqb unit "m" then Some (n * 60000)
      else if String.eqb unit "h" then Some (n * 3600000)
      else if String.eqb unit "d" then Some (n * 86400000)
      else None
  | _ => None
  end.

Definition reference : Runtime := {|
  JSON_parse := ref_JSON_parse;
  JSON_stringify := print;
  base64_to_utf8 := ref_base64_to_utf8;
  base64url := ref_base64url;
  atob := ref_atob;
  coerce := ref_coerce;
  encodeURIComponent := ref_encodeURIComponent;
  toLowerCase := ref_toLowerCase;
  bcrypt_compare := ref_bcrypt_compare;
  HS256 := ref_HS256;
  ms := ref_ms;
|}.

(* ===================================================================== *)
(** * Example data *)
(* ===================================================================== *)

Module Example.

Definition cfg : Config :=
  {| JWT_ACCESS_SECRET := "0123456789abcdef0123456789abcdef";
     JWT_REFRESH_SECRET := "fedcba9876543210fedcba9876543210";
     JWT_ACCESS_TTL := "10m";
     JWT_REFRESH_TTL := "7d" |}.

Definition jane : DbUser :=
  {| u_id := "7f3c"; u_name := "Jane Doe"; u_username := "jdoe";
     u_email := "jane@example.com"; u_password := ref_hash "secret123" |}.

Definition db : list DbUser := [jane].

(** A clock reading: 1700000000 seconds. *)
Definition now : Z := 1700000000000.


(** A token whose payload segment has a [-] in it, as the URL alphabet
    writes the payload
    [{ sub: "9a1e", username: "joe~roe", iat: 1700000000, exp: 1700000600 }]. *)
Definition token_url_alphabet : string :=
  "x."
  ++ "eyJzdWIiOiI5YTFlIiwidXNlcm5hbWUiOiJqb2V-cm9lIiwiaWF0IjoxNzAwMDAwMDAwLCJleHAiOjE3MDAwMDA2MDB9"
  ++ ".y".
Definition token_no_exp : string := "x.e30.y".
Definition token_live : string := "x.eyJleHAiOjE3MDAwMDA2MDB9.y".
Definition token_stale : string := "x.eyJleHAiOjE2MDAwMDAwMDB9.y".

Definition visit (path query : string) (params : list (string * string))
    (jar : gmap string string) : NextRequest :=
  {| nextUrl := {| pathname := path; search := query; searchParams := params |};
     cookies := jar |}.

(** A browser with both tokens in both stores. *)
Definition browser : Host :=
  {| window := Some (<["accessToken" := token_live]> (<["refreshToken" := "r"]> ∅));
     document :=
       Some (<["accessToken" := {| value := token_live; maxAge := 600 |}]>
               (<["refreshToken" := {| value := "r"; maxAge := 2592000 |}]> ∅)) |}.

(** The tokens the server signs for [jane] at [now] with the lifetimes of
    [cfg] (600 and 604800 seconds), and the result of her login. *)
Definition access_jdoe : string :=
  @jwt_sign reference now (access_payload jane) (JWT_ACCESS_SECRET cfg) 600.

Definition refresh_jdoe : string :=
  @jwt_sign reference now (refresh_payload jane) (JWT_REFRESH_SECRET cfg) 604800.

Definition session : AuthResult :=
  {| user := Some (publicUser jane); accessToken := Some access_jdoe;
     refreshToken := Some refresh_jdoe |}.

(** The login reply as the client reads it. *)
Definition reply_data : LoginData :=
  {| d_accessToken := access_jdoe; d_refreshToken := refresh_jdoe;
     d_user := {| id := "7f3c"; name := "Jane Doe"; username := "jdoe";
                  email := "jane@example.com" |} |}.

(** A row whose username is the placeholder of the lookup. *)
Definition nope : DbUser :=
  {| u_id := "0a0a"; u_name := "Nobody"; u_username := "__nope__";
     u_email := "nobody@example.com"; u_password := ref_hash "hunter22" |}.

(** A browser with nothing stored, and a window with nothing registered. *)
Definition fresh_browser : Host := {| window := Some ∅; document := Some ∅ |}.

Definition no_watchers : Watchers :=
  {| tokenWatchTimer := None; listeners := ∅; intervals := ∅; nextHandle := 1;
     observers := ∅ |}.

End Example.

(* ===================================================================== *)
(** * Properties *)
(* ===================================================================== *)

Local Arguments String.append : simpl nomatch.
Local Arguments is_num_char : simpl never.
Local Arguments needs_escape : simpl never.

Section Strings.

Lemma append_assoc (a b c : string) : (a ++ b) ++ c = a ++ (b ++ c).
Proof. induction a as [|x a IH]; simpl; [reflexivity | rewrite IH; reflexivity]. Qed.

Lemma append_empty (s : string) : s ++ "" = s.
Proof. induction s as [|c s IH]; simpl; [reflexivity | rewrite IH; reflexivity]. Qed.

Lemma length_append (a b : string) :
  String.length (a ++ b) = (String.length a + String.length b)%nat.
Proof. induction a as [|x a IH]; simpl; [reflexivity | rewrite IH; reflexivity]. Qed.

Lemma split_no_sep (sep : ascii) (a : string) :
  includes sep a = false -> split sep a = [a].
Proof.
  induction a as [|c a IH]; simpl; [reflexivity|].
  destruct (Ascii.eqb c sep); simpl; [discriminate|].
  intros Ha. rewrite (IH Ha). reflexivity.
Qed.

Lemma split_app_sep (sep : ascii) (a b : string) :
  includes sep a = false ->
  split sep (a ++ String sep b) = a :: split sep b.
Proof.
  induction a as [|c a IH]; simpl.
  - intros _. rewrite Ascii.eqb_refl. reflexivity.
  - destruct (Ascii.eqb c sep); simpl; [discriminate|].
    intros Ha. rewrite (IH Ha). reflexivity.
Qed.

(** A token written as three dot-free parts splits into them. *)
Lemma split_compact (h p s : string) :
  includes "." h = false -> includes "." p = false -> includes "." s = false ->
  split "." (h ++ "." ++ p ++ "." ++ s) = [h; p; s].
Proof.
  intros Hh Hp Hs.
  change (h ++ "." ++ p ++ "." ++ s)
    with (h ++ String "." (p ++ String "." s)).
  rewrite (split_app_sep _ _ _ Hh), (split_app_sep _ _ _ Hp), (split_no_sep _ _ Hs).
  reflexivity.
Qed.

Lemma compact_not_empty (h p s : string) :
  String.eqb (h ++ "." ++ p ++ "." ++ s) "" = false.
Proof. destruct h; reflexivity. Qed.

Lemma assoc_params_set (k v : string) (ps : list (string * string)) :
  params_get k (params_set k v ps) = Some v.
Proof.
  unfold params_get.
  induction ps as [|[k' v'] ps IH]; simpl.
  - rewrite String.eqb_refl. reflexivity.
  - destruct (String.eqb k' k) eqn:E; simpl.
    + rewrite String.eqb_refl. reflexivity.
    + rewrite E. exact IH.
Qed.

Lemma startsWith_app (p s : string) :
  startsWith p s = true <-> exists rest, s = p ++ rest.
Proof.
  revert s. induction p as [|a p IH]; intros s.
  - split; [intros _; exists s; reflexivity | reflexivity].
  - destruct s as [|b s]; simpl.
    + split; [discriminate | intros [rest E]; discriminate E].
    + rewrite andb_true_iff, Ascii.eqb_eq, IH.
      split.
      * intros [-> [rest ->]]. exists rest. reflexivity.
      * intros [rest E]. injection E as -> E. split; [reflexivity|]. exists rest. exact E.
Qed.

End Strings.

Section Gate.
Context `{R : Runtime}.
Variable now : Z.

Lemma isExpiredJwt_decoded (t : string) (payload : json) :
  t <> "" -> length (split "." t) = 3%nat -> decode_payload t = Some payload ->
  isExpiredJwt now (Some t) =
    match prop "exp" payload with
    | Some (JNum e) => e <=? seconds now
    | _ => false
    end.
Proof.
  intros Ht Hlen Hdec. unfold isExpiredJwt.
  apply String.eqb_neq in Ht. rewrite Ht, Hlen, Hdec. reflexivity.
Qed.

(** The check reads the part count and the second part only. *)
Lemma isExpiredJwt_reads_payload_only (t t' : string) :
  t <> "" -> t' <> "" ->
  length (split "." t) = length (split "." t') ->
  nth 1 (split "." t) "" = nth 1 (split "." t') "" ->
  isExpiredJwt now (Some t) = isExpiredJwt now (Some t').
Proof.
  intros Ht Ht' Hlen Hp. unfold isExpiredJwt, decode_payload.
  apply String.eqb_neq in Ht, Ht'. rewrite Ht, Ht', Hlen, Hp. reflexivity.
Qed.

Lemma authed_false_of_expired (token : option string) :
  isExpiredJwt now token = true ->
  nonempty token && negb (isExpiredJwt now token) = false.
Proof. intros ->. apply andb_false_r. Qed.

Lemma protected_not_auth_page (path : string) :
  isProtected path = true -> isAuthPage path = false.
Proof.
  unfold isProtected, isAuthPage, startsWith, PAGE_LINKS.DASHBOARD, PAGE_LINKS.PROFILE,
    PAGE_LINKS.LOGIN, PAGE_LINKS.REGISTER.
  intros H. apply orb_false_iff. split; apply String.eqb_neq; intros ->; discriminate H.
Qed.

(** After the clearing calls no token is left in the cookies. *)
Lemma clear_cookies_clears (jar : gmap string string) (res : NextResponse) :
  deleted res = clear_cookies (jar !! TOKENS.ACCESS) ->
  held TOKENS.ACCESS (apply_response res jar) = None
  /\ apply_response res jar !! TOKENS.REFRESH = None.
Proof.
  intros Hd. unfold apply_response, held. rewrite Hd. unfold clear_cookies, nonempty.
  destruct (jar !! TOKENS.ACCESS) as [t|] eqn:Hjar.
  - destruct (String.eqb t "") eqn:Et; simpl.
    + split; [|apply lookup_delete_eq].
      rewrite lookup_delete_ne by discriminate. rewrite Hjar, Et. reflexivity.
    + split; [|apply lookup_delete_eq].
      rewrite lookup_delete_ne by discriminate. rewrite lookup_delete_eq. reflexivity.
  - simpl. split; [|apply lookup_delete_eq].
    rewrite lookup_delete_ne by discriminate. rewrite Hjar. reflexivity.
Qed.

(** C6.  [isExpiredJwt] answers [true] for a missing or empty token, for
    a token that does not split into three parts and for a token whose
    payload does not parse; for a token whose payload has a numeric [exp]
    it answers [true] exactly when [exp] is at most the clock's second
    count (no grace: equality counts as expired); and its answer does not
    change when the first and the third part (header and signature) are
    replaced by any others. *)
Theorem isExpiredJwt_advisory :
  isExpiredJwt now None = true
  /\ isExpiredJwt now (Some "") = true
  /\ (forall t, length (split "." t) <> 3%nat -> isExpiredJwt now (Some t) = true)
  /\ (forall t, decode_payload t = None -> isExpiredJwt now (Some t) = true)
  /\ (forall t payload e,
        t <> "" -> length (split "." t) = 3%nat ->
        decode_payload t = Some payload -> prop "exp" payload = Some (JNum e) ->
        (e <= seconds now -> isExpiredJwt now (Some t) = true)
        /\ (seconds now < e -> isExpiredJwt now (Some t) = false))
  /\ (forall h p s h' s',
        includes "." h = false -> includes "." p = false -> includes "." s = false ->
        includes "." h' = false -> includes "." s' = false ->
        isExpiredJwt now (Some (h ++ "." ++ p ++ "." ++ s))
        = isExpiredJwt now (Some (h' ++ "." ++ p ++ "." ++ s'))).
Proof.
  split; [reflexivity|]. split; [reflexivity|]. split; [|split; [|split]].
  - intros t Hlen. unfold isExpiredJwt.
    destruct (String.eqb t ""); [reflexivity|].
    apply Nat.eqb_neq in Hlen. rewrite Hlen. reflexivity.
  - intros t Hdec. unfold isExpiredJwt. rewrite Hdec.
    destruct (String.eqb t ""); [reflexivity|].
    destruct (negb _); reflexivity.
  - intros t payload e Ht Hlen Hdec Hexp.
    rewrite (isExpiredJwt_decoded t payload Ht Hlen Hdec), Hexp.
    split; [intros Hle; apply Z.leb_le | intros Hlt; apply Z.leb_gt]; assumption.
  - intros h p s h' s' Hh Hp Hs Hh' Hs'.
    apply isExpiredJwt_reads_payload_only.
    + intros E. pose proof (compact_not_empty h p s) as N. rewrite E in N. discriminate.
    + intros E. pose proof (compact_not_empty h' p s') as N. rewrite E in N. discriminate.
    + rewrite !split_compact by assumption. reflexivity.
    + rewrite !split_compact by assumption. reflexivity.
Qed.

(** C9.  A token of three parts whose payload parses but has no numeric
    [exp] is never flagged expired, whatever the clock reads, and the gate
    lets a request that carries it in the access cookie through to every
    protected path, clearing nothing. *)
Theorem no_exp_never_expires (t : string) (payload : json) :
  t <> "" -> length (split "." t) = 3%nat ->
  decode_payload t = Some payload ->
  (forall e, prop "exp" payload <> Some (JNum e)) ->
  isExpiredJwt now (Some t) = false
  /\ forall req,
       cookies req !! TOKENS.ACCESS = Some t ->
       isProtected (pathname (nextUrl req)) = true ->
       middleware now req = {| action := Next; deleted := [] |}.
Proof.
  intros Ht Hlen Hdec Hexp.
  assert (Hfalse : isExpiredJwt now (Some t) = false).
  { rewrite (isExpiredJwt_decoded t payload) by assumption.
    destruct (prop "exp" payload) as [[| | e | | |]|] eqn:E; try reflexivity.
    exfalso. exact (Hexp e eq_refl). }
  split; [exact Hfalse|].
  intros req Hcookie Hprot. unfold middleware.
  rewrite Hcookie, Hprot, (protected_not_auth_page _ Hprot), Hfalse.
  unfold nonempty. apply String.eqb_neq in Ht. rewrite Ht. reflexivity.
Qed.

(** C10.  A path is protected exactly when it starts with [/dashboard] or
    [/profile], so every path below them is; it is an auth page exactly
    when it is [/login] or [/register], so no longer path under them is;
    the two classes are disjoint, and a request to a path of neither class
    continues with no cookie touched. *)
Theorem path_classes :
  (forall path,
     isProtected path = true <->
     (exists rest, path = "/dashboard" ++ rest) \/ (exists rest, path = "/profile" ++ rest))
  /\ (forall path, isAuthPage path = true <-> path = "/login" \/ path = "/register")
  /\ (forall path, isProtected path = true -> isAuthPage path = false)
  /\ (forall c rest,
        isAuthPage ("/login" ++ String c rest) = false
        /\ isAuthPage ("/register" ++ String c rest) = false
        /\ isProtected ("/login" ++ String c rest) = false
        /\ isProtected ("/register" ++ String c rest) = false)
  /\ (forall req,
        isProtected (pathname (nextUrl req)) = false ->
        isAuthPage (pathname (nextUrl req)) = false ->
        middleware now req = {| action := Next; deleted := [] |}).
Proof.
  split; [|split; [|split; [|split]]].
  - intros path. unfold isProtected, PAGE_LINKS.DASHBOARD, PAGE_LINKS.PROFILE.
    rewrite orb_true_iff, !startsWith_app. reflexivity.
  - intros path. unfold isAuthPage, PAGE_LINKS.LOGIN, PAGE_LINKS.REGISTER.
    rewrite orb_true_iff, !String.eqb_eq. reflexivity.
  - exact protected_not_auth_page.
  - intros c rest. split; [|split; [|split]]; reflexivity.
  - intros req Hp Ha. unfold middleware. rewrite Hp, Ha. reflexivity.
Qed.

(** C4.  On [/login] and [/register] a [next] parameter decides: the page
    renders and the response makes the clearing calls, the refresh cookie
    always and the access cookie whenever the request carried a token in
    it; this holds whatever the advisory check says of that token, so also
    for a token it does not flag.  After the response the cookies hold
    neither token. *)
Theorem auth_page_with_next_clears (req : NextRequest) :
  isAuthPage (pathname (nextUrl req)) = true ->
  params_has "next" (searchParams (nextUrl req)) = true ->
  action (middleware now req) = Next
  /\ deleted (middleware now req) = clear_cookies (cookies req !! TOKENS.ACCESS)
  /\ (forall t, cookies req !! TOKENS.ACCESS = Some t -> t <> "" ->
        deleted (middleware now req) = [TOKENS.ACCESS; TOKENS.REFRESH])
  /\ held TOKENS.ACCESS (apply_response (middleware now req) (cookies req)) = None
  /\ apply_response (middleware now req) (cookies req) !! TOKENS.REFRESH = None.
Proof.
  intros Hauth Hnext.
  assert (Hres : middleware now req
                 = {| action := Next; deleted := clear_cookies (cookies req !! TOKENS.ACCESS) |}).
  { unfold middleware. rewrite Hauth, Hnext.
    destruct (isProtected (pathname (nextUrl req))) eqn:Hp; [|reflexivity].
    apply protected_not_auth_page in Hp. congruence. }
  rewrite Hres. simpl. split; [reflexivity|]. split; [reflexivity|]. split.
  - intros t Ht Hne. rewrite Ht. unfold clear_cookies, nonempty.
    apply String.eqb_neq in Hne. rewrite Hne. reflexivity.
  - apply clear_cookies_clears. reflexivity.
Qed.

(** C5.  On a protected path a request whose access cookie is absent or
    flagged expired by the advisory check is redirected to [/login] with
    [next] set to the original path followed by the original query, and
    the response makes the clearing calls: after it the cookies hold
    neither token. *)
Theorem protected_without_session_redirects (req : NextRequest) :
  isProtected (pathname (nextUrl req)) = true ->
  cookies req !! TOKENS.ACCESS = None
  \/ isExpiredJwt now (cookies req !! TOKENS.ACCESS) = true ->
  (exists query,
     action (middleware now req) = Redirect "/login" query
     /\ params_get "next" query
        = Some (pathname (nextUrl req) ++ search (nextUrl req)))
  /\ deleted (middleware now req) = clear_cookies (cookies req !! TOKENS.ACCESS)
  /\ (forall t, cookies req !! TOKENS.ACCESS = Some t -> t <> "" ->
        deleted (middleware now req) = [TOKENS.ACCESS; TOKENS.REFRESH])
  /\ held TOKENS.ACCESS (apply_response (middleware now req) (cookies req)) = None
  /\ apply_response (middleware now req) (cookies req) !! TOKENS.REFRESH = None.
Proof.
  intros Hprot Hexp.
  assert (Hflag : isExpiredJwt now (cookies req !! TOKENS.ACCESS) = true).
  { destruct Hexp as [Hnone|Hexp]; [rewrite Hnone; reflexivity | exact Hexp]. }
  assert (Hres : middleware now req
                 = {| action :=
                        Redirect PAGE_LINKS.LOGIN
                          (params_set "next"
                             (pathname (nextUrl req) ++ search (nextUrl req))
                             (searchParams (nextUrl req)));
                      deleted := clear_cookies (cookies req !! TOKENS.ACCESS) |}).
  { unfold middleware. rewrite Hprot, (authed_false_of_expired _ Hflag). reflexivity. }
  rewrite Hres. simpl. split.
  - eexists. split; [reflexivity|]. apply assoc_params_set.
  - split; [reflexivity|]. split.
    + intros t Ht Hne. rewrite Ht. unfold clear_cookies, nonempty.
      apply String.eqb_neq in Hne. rewrite Hne. reflexivity.
    + apply clear_cookies_clears. reflexivity.
Qed.

End Gate.

Section SessionStore.
Context `{R : Runtime}.


Lemma clear_writes_jar (jar : gmap string Cookie) :
  foldl (fun j w => write_cookie w j) jar clear_writes
  = delete TOKENS.REFRESH (delete TOKENS.ACCESS jar).
Proof. reflexivity. Qed.

Lemma cleared_jar (jar : gmap string Cookie) :
  delete TOKENS.REFRESH (delete TOKENS.ACCESS jar) !! TOKENS.ACCESS = None
  /\ delete TOKENS.REFRESH (delete TOKENS.ACCESS jar) !! TOKENS.REFRESH = None.
Proof.
  split; [|apply lookup_delete_eq].
  rewrite lookup_delete_ne by discriminate. apply lookup_delete_eq.
Qed.

Lemma delete_both_twice {A : Type} (m : gmap string A) :
  delete TOKENS.REFRESH (delete TOKENS.ACCESS
    (delete TOKENS.REFRESH (delete TOKENS.ACCESS m)))
  = delete TOKENS.REFRESH (delete TOKENS.ACCESS m).
Proof.
  set (cleared := delete TOKENS.REFRESH (delete TOKENS.ACCESS m)).
  assert (Ha : cleared !! TOKENS.ACCESS = None).
  { unfold cleared. rewrite lookup_delete_ne by discriminate. apply lookup_delete_eq. }
  assert (Hr : cleared !! TOKENS.REFRESH = None) by apply lookup_delete_eq.
  rewrite (delete_id cleared TOKENS.ACCESS Ha). apply delete_id. exact Hr.
Qed.




End SessionStore.

Section Server.
Context `{R : Runtime}.
Variables (cfg : Config) (db : list DbUser) (now : Z).

(** The result of [authenticate], case by case. *)
Lemma authenticate_cases (identifier password : string) :
  authenticate cfg db now identifier password
  = match find (matches identifier) db with
    | None =>
        ([DbFindFirst identifier; BcryptCompare password DUMMY_HASH], Ok no_user)
    | Some row =>
        if bcrypt_compare password (u_password row) then
          match ms (JWT_ACCESS_TTL cfg), ms (JWT_REFRESH_TTL cfg) with
          | None, _ =>
              ([DbFindFirst identifier; BcryptCompare password (u_password row)],
               Throw "expiresIn")
          | Some d, None =>
              ([DbFindFirst identifier; BcryptCompare password (u_password row);
                JwtSign (JWT_ACCESS_SECRET cfg)],
               Throw "expiresIn")
          | Some d, Some d' =>
              ([DbFindFirst identifier; BcryptCompare password (u_password row);
                JwtSign (JWT_ACCESS_SECRET cfg); JwtSign (JWT_REFRESH_SECRET cfg)],
               Ok {| user := Some (publicUser row);
                     accessToken :=
                       Some (jwt_sign now (access_payload row) (JWT_ACCESS_SECRET cfg)
                               (d / 1000));
                     refreshToken :=
                       Some (jwt_sign now (refresh_payload row) (JWT_REFRESH_SECRET cfg)
                               (d' / 1000)) |})
          end
        else
          ([DbFindFirst identifier; BcryptCompare password (u_password row)], Ok no_user)
    end.
Proof.
  unfold authenticate, findFirst, compare, signJwt.
  destruct (find (matches identifier) db) as [row|]; [|reflexivity].
  cbn [bind emit ret app]. destruct (bcrypt_compare password (u_password row)); [|reflexivity].
  cbn [negb]. destruct (ms (JWT_ACCESS_TTL cfg)) as [d|]; [|reflexivity].
  destruct (ms (JWT_REFRESH_TTL cfg)) as [d'|]; reflexivity.
Qed.

(** C2.  Every run of [authenticate] makes exactly one secret-hash
    comparison, whichever way it ends: of the given password against the
    stored hash when the lookup finds a row, against [DUMMY_HASH] when it
    finds none.  When no row is found, and when a row is found but the
    comparison fails, the result is the same value [no_user]
    ([{ user: null }], no token): nothing in it tells the two apart. *)
Theorem authenticate_compares_once (identifier password : string) :
  compares (fst (authenticate cfg db now identifier password))
  = [(password,
      match find (matches identifier) db with
      | Some row => u_password row
      | None => DUMMY_HASH
      end)]
  /\ (find (matches identifier) db = None ->
      snd (authenticate cfg db now identifier password) = Ok no_user)
  /\ (forall row,
        find (matches identifier) db = Some row ->
        bcrypt_compare password (u_password row) = false ->
        snd (authenticate cfg db now identifier password) = Ok no_user).
Proof.
  rewrite authenticate_cases. split; [|split].
  - destruct (find (matches identifier) db) as [row|]; [|reflexivity].
    destruct (bcrypt_compare password (u_password row)); [|reflexivity].
    destruct (ms (JWT_ACCESS_TTL cfg)); [|reflexivity].
    destruct (ms (JWT_REFRESH_TTL cfg)); reflexivity.
  - intros ->. reflexivity.
  - intros row -> ->. reflexivity.
Qed.

(** C3.  A login request fails when its body failed the schema, when
    the identifier finds no row, or when the password does not match the
    row's hash.  In each of the three cases the handler answers status 401
    with the body [{ success: false, error: "Invalid credentials" }]. *)
Theorem login_failures_are_uniform (r : LoginReq) :
  validationError r <> None
  \/ find (matches (identifier (body r))) db = None
  \/ (exists row,
        find (matches (identifier (body r))) db = Some row
        /\ bcrypt_compare (password (body r)) (u_password row) = false) ->
  snd (login_handler cfg db now r)
  = Ok {| code := 401; sent := Failure "Invalid credentials" |}.
Proof.
  intros Hcause. unfold login_handler.
  destruct (validationError r) as [err|]; [reflexivity|].
  rewrite authenticate_cases.
  destruct Hcause as [Hv | [Hnone | (row & Hrow & Hbad)]].
  - contradiction.
  - rewrite Hnone. reflexivity.
  - rewrite Hrow, Hbad. reflexivity.
Qed.

Lemma assoc_obj_set (k : string) (v : json) (fs : list (string * json)) :
  assoc k (obj_set k v fs) = Some v.
Proof.
  induction fs as [|[k' v'] fs IH]; simpl.
  - rewrite String.eqb_refl. reflexivity.
  - destruct (String.eqb k' k) eqn:E; simpl; rewrite E; [reflexivity | exact IH].
Qed.

Lemma assoc_obj_set_other (k k' : string) (v : json) (fs : list (string * json)) :
  k <> k' -> assoc k' (obj_set k v fs) = assoc k' fs.
Proof.
  intros Hne. induction fs as [|[k0 v0] fs IH]; simpl.
  - apply String.eqb_neq in Hne. rewrite Hne. reflexivity.
  - destruct (String.eqb k0 k) eqn:E; simpl.
    + apply String.eqb_eq in E. subst k0. apply String.eqb_neq in Hne.
      rewrite Hne. reflexivity.
    + rewrite IH. reflexivity.
Qed.

Lemma b64url_string_no_dot (s : string) :
  b64url_string s = true -> includes "." s = false.
Proof.
  induction s as [|c s IH]; simpl; [reflexivity|].
  intros H. apply andb_true_iff in H as [Hc Hs]. rewrite (IH Hs), orb_false_r.
  destruct (Ascii.eqb_spec c ".") as [->|]; [discriminate Hc | reflexivity].
Qed.

Context {L : RuntimeLaws R}.

Lemma segment_parses (v : json) : JSON_parse (base64_to_utf8 (segment v)) = Some v.
Proof. unfold segment. rewrite base64_roundtrip. apply JSON_roundtrip. Qed.

Lemma segment_not_empty (v : json) : String.eqb (segment v) "" = false.
Proof.
  apply String.eqb_neq. intros E. apply base64url_nonempty in E.
  exact (JSON_stringify_nonempty v E).
Qed.

Lemma segment_alphabet (v : json) : b64url_string (segment v) = true.
Proof. apply base64url_alphabet. Qed.

(** A token the package signed verifies under the same secret until its
    [exp], and gives back the signed claims. *)
Lemma jwt_verify_jwt_sign (now' : Z) (payload : list (string * json))
    (secret : string) (expiresIn : Z) :
  assoc "nbf" payload = None ->
  seconds now' < seconds now + expiresIn ->
  jwt_verify now' (jwt_sign now payload secret expiresIn) secret ["HS256"]
  = Ok (JObj (signed_claims now payload expiresIn)).
Proof.
  intros Hnbf Hlive. unfold jwt_verify, jwt_sign.
  set (claims := signed_claims now payload expiresIn).
  set (h := segment jwt_header). set (p := segment (JObj claims)).
  set (s := HS256 secret (h ++ "." ++ p)).
  assert (Hsplit : split "." ((h ++ "." ++ p) ++ "." ++ s) = [h; p; s]).
  { rewrite append_assoc. apply split_compact; apply b64url_string_no_dot.
    - apply segment_alphabet.
    - apply segment_alphabet.
    - apply HS256_alphabet. }
  rewrite Hsplit. cbn [length Nat.eqb negb nth].
  unfold valid_compact. subst h p.
  rewrite !segment_not_empty, !segment_alphabet. subst s.
  rewrite HS256_alphabet. cbn [negb andb].
  rewrite !segment_parses.
  destruct (String.eqb_spec (HS256 secret (segment jwt_header ++ "." ++ segment (JObj claims))) "")
    as [E|_]; [exfalso; exact (HS256_nonempty _ _ E)|].
  cbn [jwt_header prop assoc]. cbn. rewrite String.eqb_refl. cbn [negb].
  unfold check_nbf, check_exp, prop, claims, signed_claims.
  rewrite !assoc_obj_set_other by discriminate. rewrite Hnbf, assoc_obj_set.
  destruct (Z.leb_spec (seconds now + expiresIn) (seconds now')); [lia | reflexivity].
Qed.

(** C1, as the code has it.  On a host that satisfies [RuntimeLaws],
    when the credentials match and both lifetimes are durations,
    [authenticate] returns a token pair whose access token verifies under
    the access secret at every clock reading before its [exp]
    ([iat] plus the access lifetime), and the verified claims are [sub]
    (the row's id), [username], [iat] and [exp]: the subject is the
    identity, and there is no [kind] or [type] claim. *)
Theorem issued_access_token_verifies (now' : Z) (identifier password : string)
    (row : DbUser) (d d' : Z) :
  find (matches identifier) db = Some row ->
  bcrypt_compare password (u_password row) = true ->
  ms (JWT_ACCESS_TTL cfg) = Some d ->
  ms (JWT_REFRESH_TTL cfg) = Some d' ->
  seconds now' < seconds now + d / 1000 ->
  exists tok rtok claims,
    snd (authenticate cfg db now identifier password)
    = Ok {| user := Some (publicUser row); accessToken := Some tok;
            refreshToken := Some rtok |}
    /\ verifyJwt now' tok (JWT_ACCESS_SECRET cfg) = Ok claims
    /\ claims = JObj [("sub", JStr (u_id row)); ("username", JStr (u_username row));
                      ("iat", JNum (seconds now));
                      ("exp", JNum (seconds now + d / 1000))]
    /\ prop "sub" claims = Some (JStr (u_id row))
    /\ prop "username" claims = Some (JStr (u_username row))
    /\ prop "type" claims = None
    /\ prop "kind" claims = None.
Proof.
  intros Hrow Hok Hd Hd' Hlive.
  eexists _, _, _. rewrite authenticate_cases, Hrow, Hok, Hd, Hd'. cbn [snd].
  split; [reflexivity|]. split.
  - unfold verifyJwt. apply jwt_verify_jwt_sign; [reflexivity | exact Hlive].
  - repeat split.
Qed.

End Server.

Section GateRouting.
Context `{R : Runtime}.

(** The four answers of the gate, by the class of the path, the session
    and the [next] parameter. *)
Lemma middleware_cases (now : Z) (req : NextRequest) :
  let path := pathname (nextUrl req) in
  let token := cookies req !! TOKENS.ACCESS in
  let authed := nonempty token && negb (isExpiredJwt now token) in
  (isProtected path = true /\ authed = false
   /\ middleware now req
      = {| action := Redirect PAGE_LINKS.LOGIN
             (params_set "next" (path ++ search (nextUrl req)) (searchParams (nextUrl req)));
           deleted := clear_cookies token |})
  \/ (isAuthPage path = true /\ params_has "next" (searchParams (nextUrl req)) = true
      /\ middleware now req = {| action := Next; deleted := clear_cookies token |})
  \/ (isAuthPage path = true /\ params_has "next" (searchParams (nextUrl req)) = false
      /\ authed = true
      /\ middleware now req = {| action := Redirect PAGE_LINKS.DASHBOARD []; deleted := [] |})
  \/ ((isProtected path = false \/ authed = true)
      /\ (isAuthPage path = false
          \/ params_has "next" (searchParams (nextUrl req)) = false /\ authed = false)
      /\ middleware now req = {| action := Next; deleted := [] |}).
Proof.
  cbv zeta. unfold middleware.
  destruct (isProtected (pathname (nextUrl req))) eqn:Hp.
  - rewrite (protected_not_auth_page _ Hp).
    destruct (nonempty _ && negb _) eqn:Ha; cbn [andb negb].
    + right. right. right. split; [right; reflexivity|].
      split; [left; reflexivity | reflexivity].
    + left. split; [reflexivity|]. split; reflexivity.
  - cbn [andb]. destruct (isAuthPage (pathname (nextUrl req))) eqn:Hauth; cbn [andb].
    + destruct (params_has "next" _) eqn:Hn.
      * right. left. split; [reflexivity|]. split; reflexivity.
      * destruct (nonempty _ && negb _) eqn:Ha; cbn [andb negb].
        -- right. right. left. repeat split.
        -- right. right. right. split; [left; reflexivity|].
           split; [right; split; reflexivity | reflexivity].
    + right. right. right. split; [left; reflexivity|].
      split; [left; reflexivity | reflexivity].
Qed.

Lemma deleted_cases (now : Z) (req : NextRequest) :
  deleted (middleware now req) = []
  \/ deleted (middleware now req) = clear_cookies (cookies req !! TOKENS.ACCESS).
Proof.
  destruct (middleware_cases now req)
    as [(_ & _ & ->) | [(_ & _ & ->) | [(_ & _ & _ & ->) | (_ & _ & ->)]]];
    simpl; auto.
Qed.

Lemma apply_deleted_other (names : list string) (jar : gmap string string) (name : string) :
  ~ In name names -> foldl (fun j n => delete n j) jar names !! name = jar !! name.
Proof.
  revert jar. induction names as [|n names IH]; intros jar Hn; simpl; [reflexivity|].
  rewrite IH by (intros Hin; apply Hn; right; exact Hin).
  apply lookup_delete_ne. intros ->. apply Hn. left. reflexivity.
Qed.

Lemma clear_cookies_names (token : option string) (name : string) :
  In name (clear_cookies token) -> name = TOKENS.ACCESS \/ name = TOKENS.REFRESH.
Proof. unfold clear_cookies. destruct (nonempty token); simpl; intuition. Qed.

Lemma params_has_set (k v : string) (ps : list (string * string)) :
  params_has k (params_set k v ps) = true.
Proof.
  unfold params_has. induction ps as [|[k' v'] ps IH]; simpl.
  - rewrite String.eqb_refl. reflexivity.
  - destruct (String.eqb k' k) eqn:E; simpl.
    + rewrite String.eqb_refl. reflexivity.
    + rewrite E. exact IH.
Qed.

Lemma assoc_filter_other (k k' : string) (ps : list (string * string)) :
  k' <> k ->
  assoc k' (filter (fun p => negb (String.eqb (fst p) k)) ps) = assoc k' ps.
Proof.
  intros Hne. induction ps as [|[k0 v0] ps IH]; [reflexivity|].
  rewrite filter_cons. cbn [fst assoc].
  destruct (String.eqb_spec k0 k) as [->|Hk0]; cbn [negb].
  - rewrite decide_False by (intros []).
    apply not_eq_sym, String.eqb_neq in Hne. rewrite Hne. exact IH.
  - rewrite decide_True by exact I. cbn [assoc]. rewrite IH. reflexivity.
Qed.

Lemma params_set_other (k k' v : string) (ps : list (string * string)) :
  k' <> k -> params_get k' (params_set k v ps) = params_get k' ps.
Proof.
  intros Hne. unfold params_get. induction ps as [|[k0 v0] ps IH]; simpl.
  - apply not_eq_sym, String.eqb_neq in Hne. rewrite Hne. reflexivity.
  - destruct (String.eqb_spec k0 k) as [->|Hk0]; cbn [assoc].
    + apply not_eq_sym, String.eqb_neq in Hne. rewrite Hne.
      apply assoc_filter_other. apply String.eqb_neq. rewrite String.eqb_sym. exact Hne.
    + rewrite IH. reflexivity.
Qed.

Lemma named_filter_out (k : string) (ps : list (string * string)) :
  named k (filter (fun p => negb (String.eqb (fst p) k)) ps) = [].
Proof.
  unfold named. induction ps as [|[k0 v0] ps IH]; [reflexivity|].
  rewrite filter_cons. cbn [fst].
  destruct (String.eqb k0 k) eqn:E; cbn [negb].
  - rewrite decide_False by (intros []). exact IH.
  - rewrite decide_True by exact I. rewrite filter_cons. cbn [fst]. rewrite E.
    rewrite decide_False by (intros []). exact IH.
Qed.

Lemma named_params_set (k v : string) (ps : list (string * string)) :
  named k (params_set k v ps) = [(k, v)].
Proof.
  induction ps as [|[k0 v0] ps IH]; simpl.
  - unfold named. rewrite filter_cons. cbn [fst]. rewrite String.eqb_refl.
    rewrite decide_True by exact I. reflexivity.
  - destruct (String.eqb k0 k) eqn:E.
    + unfold named. rewrite filter_cons. cbn [fst]. rewrite String.eqb_refl.
      rewrite decide_True by exact I. f_equal. apply named_filter_out.
    + unfold named. rewrite filter_cons. cbn [fst]. rewrite E.
      rewrite decide_False by (intros []). exact IH.
Qed.

Lemma seconds_mono (now now' : Z) : now <= now' -> seconds now <= seconds now'.
Proof. intros H. unfold seconds. apply Z.div_le_mono; lia. Qed.

Lemma isExpiredJwt_later (now now' : Z) (token : option string) :
  now <= now' -> isExpiredJwt now token = true -> isExpiredJwt now' token = true.
Proof.
  intros Hle. apply seconds_mono in Hle. unfold isExpiredJwt.
  destruct token as [t|]; [|reflexivity].
  destruct (String.eqb t ""); [reflexivity|].
  destruct (negb _); [reflexivity|].
  destruct (decode_payload t) as [payload|]; [|reflexivity].
  destruct (prop "exp" payload) as [[| | e | | |]|]; try discriminate.
  intros He. apply Z.leb_le in He. apply Z.leb_le. lia.
Qed.

(** X1.  The gate touches no cookie but the two token cookies: every name
    a response deletes is [accessToken] or [refreshToken], and a cookie of
    any other name is in the browser after the response as it was before,
    whatever the path, the query, the token and the clock. *)
Theorem middleware_keeps_other_cookies (now : Z) (req : NextRequest) (name : string) :
  name <> TOKENS.ACCESS -> name <> TOKENS.REFRESH ->
  (forall n, In n (deleted (middleware now req)) ->
             n = TOKENS.ACCESS \/ n = TOKENS.REFRESH)
  /\ apply_response (middleware now req) (cookies req) !! name = cookies req !! name.
Proof.
  intros Ha Hr.
  assert (Hnames : forall n, In n (deleted (middleware now req)) ->
                             n = TOKENS.ACCESS \/ n = TOKENS.REFRESH).
  { intros n. destruct (deleted_cases now req) as [-> | ->].
    - intros [].
    - apply clear_cookies_names. }
  split; [exact Hnames|].
  unfold apply_response. apply apply_deleted_other.
  intros Hin. destruct (Hnames _ Hin); contradiction.
Qed.


(** X3.  No redirect loop.  When the browser follows a redirect of the
    gate, with the cookies the response left it, the gate lets that second
    request through to its page: at the same clock reading after either
    redirect, and at every clock reading after the redirect to [/login]
    (whose [next] parameter makes the gate render the page). *)
Theorem redirect_lands (now : Z) (req req' : NextRequest) (raw : string) :
  follow (middleware now req) raw req = Some req' ->
  action (middleware now req') = Next
  /\ (pathname (nextUrl req') = PAGE_LINKS.LOGIN ->
      forall now', action (middleware now' req') = Next).
Proof.
  unfold follow. intros Hf.
  destruct (middleware_cases now req)
    as [(Hp & _ & E) | [(_ & _ & E) | [(Ha & Hn & Hauth & E) | (_ & _ & E)]]];
    rewrite E in Hf; cbn [action] in Hf; try discriminate Hf.
  - injection Hf as <-.
    assert (Hall : forall now', action (middleware now'
      {| nextUrl := {| pathname := PAGE_LINKS.LOGIN; search := raw;
                       searchParams := params_set "next"
                         (pathname (nextUrl req) ++ search (nextUrl req))
                         (searchParams (nextUrl req)) |};
         cookies := apply_response
           {| action := Redirect PAGE_LINKS.LOGIN
                (params_set "next" (pathname (nextUrl req) ++ search (nextUrl req))
                   (searchParams (nextUrl req)));
              deleted := clear_cookies (cookies req !! TOKENS.ACCESS) |} (cookies req) |})
      = Next).
    { intros now'. unfold middleware. cbn [nextUrl pathname searchParams].
      rewrite params_has_set. reflexivity. }
    split; [apply Hall | intros _; exact Hall].
  - injection Hf as <-. split; [|intros H; discriminate H].
    unfold middleware, apply_response.
    cbn [nextUrl pathname searchParams cookies deleted foldl].
    rewrite Hauth. reflexivity.
Qed.

(** X4.  The advisory check is monotone in the clock: a token it flags at
    one clock reading it flags at every later one, and a request the gate
    redirects to [/login] gets the same response at every later clock
    reading. *)
Theorem isExpiredJwt_monotone (now now' : Z) (req : NextRequest) :
  now <= now' ->
  (forall token, isExpiredJwt now token = true -> isExpiredJwt now' token = true)
  /\ (forall query, action (middleware now req) = Redirect "/login" query ->
        middleware now' req = middleware now req).
Proof.
  intros Hle. split; [intros token; apply isExpiredJwt_later; exact Hle|].
  intros query Hact.
  destruct (middleware_cases now req)
    as [(Hp & Hauth & E) | [(_ & _ & E) | [(Ha & Hn & _ & E) | (_ & _ & E)]]];
    rewrite E in Hact |- *; cbn [action] in Hact; try discriminate Hact.
  unfold middleware. rewrite Hp. cbn [andb].
  apply andb_false_iff in Hauth as [Hne | Hex].
  - rewrite Hne. reflexivity.
  - apply negb_false_iff in Hex. rewrite (isExpiredJwt_later now now' _ Hle Hex).
    rewrite andb_false_r. reflexivity.
Qed.

(** X5.  A request whose access cookie holds a token the advisory check
    does not flag goes through to every protected path, and from an auth
    page without [next] it is sent to [/dashboard] with an empty query;
    without [next] the response deletes nothing, so the browser's cookies
    stay as they were. *)
Theorem unflagged_session_routing (now : Z) (req : NextRequest) (t : string) :
  cookies req !! TOKENS.ACCESS = Some t -> t <> "" ->
  isExpiredJwt now (Some t) = false ->
  (isProtected (pathname (nextUrl req)) = true ->
   middleware now req = {| action := Next; deleted := [] |})
  /\ (isAuthPage (pathname (nextUrl req)) = true ->
      params_has "next" (searchParams (nextUrl req)) = false ->
      middleware now req = {| action := Redirect "/dashboard" []; deleted := [] |})
  /\ (params_has "next" (searchParams (nextUrl req)) = false ->
      apply_response (middleware now req) (cookies req) = cookies req).
Proof.
  intros Hc Ht Hflag. apply String.eqb_neq in Ht.
  assert (Hauthed : nonempty (cookies req !! TOKENS.ACCESS)
                    && negb (isExpiredJwt now (cookies req !! TOKENS.ACCESS)) = true).
  { rewrite Hc, Hflag. unfold nonempty. rewrite Ht. reflexivity. }
  split; [|split].
  - intros Hp. unfold middleware. rewrite Hp, (protected_not_auth_page _ Hp), Hauthed.
    reflexivity.
  - intros Ha Hn. unfold middleware. rewrite Ha, Hn, Hauthed.
    destruct (isProtected (pathname (nextUrl req))); reflexivity.
  - intros Hn. unfold middleware. rewrite Hn, Hauthed, !andb_false_r. cbn [negb andb].
    destruct (isAuthPage (pathname (nextUrl req))); reflexivity.
Qed.

(** X6.  On [/login] and [/register] without a [next] parameter, a
    request whose access cookie is absent, empty or flagged by the advisory
    check renders the page, and the response deletes nothing: a stale
    token stays in the browser's cookies until a request with [next] or to
    a protected path clears it. *)
Theorem auth_page_without_next (now : Z) (req : NextRequest) :
  isAuthPage (pathname (nextUrl req)) = true ->
  params_has "next" (searchParams (nextUrl req)) = false ->
  nonempty (cookies req !! TOKENS.ACCESS) = false
  \/ isExpiredJwt now (cookies req !! TOKENS.ACCESS) = true ->
  middleware now req = {| action := Next; deleted := [] |}
  /\ apply_response (middleware now req) (cookies req) = cookies req.
Proof.
  intros Ha Hn Hno.
  assert (E : middleware now req = {| action := Next; deleted := [] |}).
  { unfold middleware. rewrite Ha, Hn.
    assert (Hauthed : nonempty (cookies req !! TOKENS.ACCESS)
                      && negb (isExpiredJwt now (cookies req !! TOKENS.ACCESS)) = false).
    { destruct Hno as [-> | ->]; [reflexivity | apply andb_false_r]. }
    rewrite Hauthed.
    destruct (isProtected (pathname (nextUrl req))) eqn:Hp; [|reflexivity].
    apply protected_not_auth_page in Hp. congruence. }
  rewrite E. split; reflexivity.
Qed.

(** X7.  The query of the redirect to [/login] is the query of the request
    with [next] set: it has exactly one [next] pair, whose value is the
    path followed by the raw query of the request (a [next] the request
    carried is replaced, not kept beside it), and every other parameter
    reads as it did in the request. *)
Theorem login_redirect_keeps_query (now : Z) (req : NextRequest)
    (query : list (string * string)) :
  action (middleware now req) = Redirect "/login" query ->
  named "next" query = [("next", pathname (nextUrl req) ++ search (nextUrl req))]
  /\ (forall k, k <> "next" ->
                params_get k query = params_get k (searchParams (nextUrl req))).
Proof.
  intros Hact.
  destruct (middleware_cases now req)
    as [(Hp & Hauth & E) | [(_ & _ & E) | [(Ha & Hn & _ & E) | (_ & _ & E)]]];
    rewrite E in Hact; cbn [action] in Hact; try discriminate Hact.
  injection Hact as <-. split; [apply named_params_set|].
  intros k Hk. apply params_set_other. exact Hk.
Qed.

End GateRouting.

Section SessionFlows.
Context `{R : Runtime}.

Lemma getToken_clearToken (h : Host) : getToken (clearToken h) = None.
Proof.
  unfold getToken, clearToken. destruct (window h) as [ls|] eqn:E; cbn [window].
  - rewrite lookup_delete_ne by discriminate. apply lookup_delete_eq.
  - rewrite E. reflexivity.
Qed.

Lemma clearToken_twice (h : Host) : clearToken (clearToken h) = clearToken h.
Proof.
  destruct h as [[ls|] [jar|]]; unfold clearToken; cbn [window document];
    rewrite ?clear_writes_jar, ?delete_both_twice; reflexivity.
Qed.

(** The ways [login] ends, by what the request met. *)
Lemma login_cases (now : Z) (o : HttpOutcome LoginEnvelope) (h : Host) :
  (o = Http401 /\ login now o h = (Throw "AuthError", clearToken h))
  \/ (exists m, o = HttpNotOk m /\ login now o h = (Throw m, h))
  \/ ((o = HttpBody None
       \/ (exists d, o = HttpBody (Some {| success := false; data := d |}))
       \/ o = HttpBody (Some {| success := true; data := None |}))
      /\ login now o h = (Throw "Login failed", h))
  \/ (exists d, o = HttpBody (Some {| success := true; data := Some d |})
      /\ fst (login now o h) = Ok d).
Proof.
  destruct o as [|m|[[[|] [d|]]|]].
  - left. split; reflexivity.
  - right. left. exists m. split; reflexivity.
  - right. right. right. exists d. split; [reflexivity|]. destruct d. reflexivity.
  - right. right. left. split; [right; right; reflexivity | reflexivity].
  - right. right. left. split; [right; left; eexists; reflexivity | reflexivity].
  - right. right. left. split; [right; left; eexists; reflexivity | reflexivity].
  - right. right. left. split; [left; reflexivity | reflexivity].
Qed.

Lemma login_maxAge_nonneg (now : Z) (a : string) : 0 <= login_maxAge now a.
Proof.
  unfold login_maxAge, maxAgeFromJwt.
  destruct (login_payload a) as [payload|]; [|cbn; lia].
  destruct (prop "exp" payload) as [e|]; [|cbn; lia].
  destruct (truthy (Some e)); [|cbn; lia].
  destruct (ToNumber e) as [z| | |]; cbn; lia.
Qed.

(** The state a successful login leaves in a browser. *)
Lemma login_success (now : Z) (d : LoginData) (ls : gmap string string)
    (jar : gmap string Cookie) :
  login now (HttpBody (Some {| success := true; data := Some d |}))
    {| window := Some ls; document := Some jar |}
  = (Ok d,
     {| window := Some (<[TOKENS.REFRESH := d_refreshToken d]>
                          (<[TOKENS.ACCESS := d_accessToken d]> ls));
        document :=
          Some (<[TOKENS.REFRESH := {| value := encodeURIComponent (d_refreshToken d);
                                       maxAge := 2592000 |}]>
                  (write_cookie (access_write now (d_accessToken d)) jar)) |}).
Proof. destruct d. reflexivity. Qed.

(** The access cookie after the write. *)
Lemma access_write_lookup (now : Z) (a : string) (jar : gmap string Cookie) :
  write_cookie (access_write now a) jar !! TOKENS.ACCESS
  = if login_maxAge now a =? 0 then None
    else Some {| value := encodeURIComponent a; maxAge := login_maxAge now a |}.
Proof.
  unfold write_cookie, access_write. cbn [w_maxAge w_name w_value].
  pose proof (login_maxAge_nonneg now a) as Hge.
  destruct (Z.eqb_spec (login_maxAge now a) 0) as [E|E].
  - rewrite E. cbn. apply lookup_delete_eq.
  - destruct (Z.leb_spec (login_maxAge now a) 0); [lia|]. apply lookup_insert_eq.
Qed.

Lemma access_write_other (now : Z) (a k : string) (jar : gmap string Cookie) :
  k <> TOKENS.ACCESS -> write_cookie (access_write now a) jar !! k = jar !! k.
Proof.
  intros Hk. unfold write_cookie, access_write. cbn [w_maxAge w_name w_value].
  destruct (login_maxAge now a <=? 0).
  - apply lookup_delete_ne. congruence.
  - apply lookup_insert_ne. congruence.
Qed.

Lemma delete_both_insert_both {A : Type} (a r : A) (m : gmap string A) :
  delete TOKENS.REFRESH (delete TOKENS.ACCESS
    (<[TOKENS.REFRESH := r]> (<[TOKENS.ACCESS := a]> m)))
  = delete TOKENS.REFRESH (delete TOKENS.ACCESS m).
Proof.
  apply map_eq. intros k.
  destruct (decide (k = TOKENS.REFRESH)) as [->|Hr].
  - rewrite !lookup_delete_eq. reflexivity.
  - rewrite !(lookup_delete_ne _ TOKENS.REFRESH) by congruence.
    destruct (decide (k = TOKENS.ACCESS)) as [->|Ha].
    + rewrite !lookup_delete_eq. reflexivity.
    + rewrite !lookup_delete_ne by congruence. rewrite !lookup_insert_ne by congruence.
      reflexivity.
Qed.

Lemma delete_both_write (w : CookieWrite) (jar : gmap string Cookie) :
  w_name w = TOKENS.ACCESS \/ w_name w = TOKENS.REFRESH ->
  delete TOKENS.REFRESH (delete TOKENS.ACCESS (write_cookie w jar))
  = delete TOKENS.REFRESH (delete TOKENS.ACCESS jar).
Proof.
  intros Hw. apply map_eq. intros k.
  destruct (decide (k = TOKENS.REFRESH)) as [->|Hr].
  - rewrite !lookup_delete_eq. reflexivity.
  - rewrite !(lookup_delete_ne _ TOKENS.REFRESH) by congruence.
    destruct (decide (k = TOKENS.ACCESS)) as [->|Ha].
    + rewrite !lookup_delete_eq. reflexivity.
    + rewrite !lookup_delete_ne by congruence. unfold write_cookie.
      destruct (w_maxAge w <=? 0).
      * apply lookup_delete_ne. destruct Hw; congruence.
      * apply lookup_insert_ne. destruct Hw; congruence.
Qed.

Lemma headers_no_token (json : bool) (h : Host) :
  getToken h = None -> assoc "Authorization" (headers json h) = None.
Proof. unfold headers. intros ->. destruct json; reflexivity. Qed.

(** X8.  The token store reads back what was written.  In a browser
    [getToken] after [setToken t] gives [t], a second [setToken] replaces
    the first, [setRefreshToken] leaves the access token and the cookies as
    they are, and [isAuthenticated] is then true exactly when [t] is not
    the empty string.  Where there is no [window] (server-side rendering)
    both setters leave the host as it is, [getToken] gives [null] and
    [isAuthenticated] is false. *)
Theorem token_store_round_trip (h : Host) (t t' r : string) :
  (window h <> None ->
   getToken (setToken t h) = Some t
   /\ getToken (setToken t' (setToken t h)) = Some t'
   /\ getToken (setRefreshToken r (setToken t h)) = Some t
   /\ isAuthenticated (setToken t h) = negb (String.eqb t "")
   /\ document (setRefreshToken r (setToken t h)) = document h)
  /\ (window h = None ->
      setToken t h = h /\ setRefreshToken r h = h /\ getToken h = None
      /\ isAuthenticated h = false).
Proof.
  unfold isAuthenticated, getToken, setToken, setRefreshToken.
  destruct h as [[ls|] d]; cbn [window document]; split; try congruence.
  - intros _. split; [apply lookup_insert_eq|]. split; [apply lookup_insert_eq|].
    split; [|split; [|reflexivity]].
    + rewrite lookup_insert_ne by discriminate. apply lookup_insert_eq.
    + rewrite lookup_insert_eq. reflexivity.
  - intros _. repeat split.
Qed.

(** X9.  A login that throws stores nothing.  When the request met a 401
    the error is the [AuthError], the host is left as [clearToken] leaves
    it and holds no access token afterwards; in every other failing case
    (another status that is not ok, an empty body, an envelope without
    [success] or without [data]) the host is exactly as it was. *)
Theorem failed_login_stores_nothing (now : Z) (o : HttpOutcome LoginEnvelope) (h : Host)
    (m : string) :
  fst (login now o h) = Throw m ->
  (o = Http401 /\ m = "AuthError" /\ snd (login now o h) = clearToken h
   /\ getToken (snd (login now o h)) = None)
  \/ (o <> Http401 /\ snd (login now o h) = h).
Proof.
  intros Hm.
  destruct (login_cases now o h)
    as [(-> & E) | [(m' & -> & E) | [(Ho & E) | (d & -> & E)]]].
  - left. rewrite E in Hm |- *. cbn [fst snd] in *. injection Hm as <-.
    repeat split. apply getToken_clearToken.
  - right. rewrite E. split; [discriminate | reflexivity].
  - right. rewrite E. split; [|reflexivity].
    destruct Ho as [-> | [(d & ->) | ->]]; discriminate.
  - rewrite E in Hm. discriminate Hm.
Qed.

(** X10.  [logout] undoes [login]: on a host where script has a [window]
    whenever it has a [document], the state after a login (however it
    ended) followed by a logout is the state a logout alone leaves, so
    nothing a login stored survives a logout. *)
Theorem logout_undoes_login (now : Z) (o : HttpOutcome LoginEnvelope) (h : Host) :
  (document h <> None -> window h <> None) ->
  logout (snd (login now o h)) = logout h.
Proof.
  intros Hhost. unfold logout.
  destruct (login_cases now o h)
    as [(-> & E) | [(m' & -> & E) | [(Ho & E) | (d & -> & _)]]];
    try (rewrite E; cbn [snd]; try reflexivity; apply clearToken_twice).
  destruct h as [[ls|] [jar|]]; destruct d as [a r u].
  - unfold login, request, setToken, setRefreshToken, clearToken, login_writes.
    cbn [window document snd d_accessToken d_refreshToken foldl].
    rewrite clear_writes_jar, delete_both_insert_both.
    rewrite !delete_both_write by (cbn [w_name]; auto). reflexivity.
  - unfold login, request, setToken, setRefreshToken, clearToken.
    cbn [window document snd d_accessToken d_refreshToken].
    rewrite delete_both_insert_both. reflexivity.
  - exfalso. apply Hhost; [discriminate | reflexivity].
  - reflexivity.
Qed.

(** X11.  What a successful login leaves in a browser.  [localStorage]
    holds the access token and the refresh token under their names; the
    cookies hold the refresh token, URI-encoded, with 2592000 seconds; the
    access cookie is there, URI-encoded and with the lifetime
    [login_maxAge], unless that lifetime is zero (the token's [exp] is not
    after the clock), in which case the write removes it, so that
    [localStorage] then holds a token the cookies do not; every entry of
    another name is as it was in both stores. *)
Theorem login_session_state (now : Z) (d : LoginData) (ls ls' : gmap string string)
    (jar jar' : gmap string Cookie) :
  snd (login now (HttpBody (Some {| success := true; data := Some d |}))
         {| window := Some ls; document := Some jar |})
  = {| window := Some ls'; document := Some jar' |} ->
  ls' !! TOKENS.ACCESS = Some (d_accessToken d)
  /\ ls' !! TOKENS.REFRESH = Some (d_refreshToken d)
  /\ jar' !! TOKENS.REFRESH
     = Some {| value := encodeURIComponent (d_refreshToken d); maxAge := 2592000 |}
  /\ jar' !! TOKENS.ACCESS
     = (if login_maxAge now (d_accessToken d) =? 0 then None
        else Some {| value := encodeURIComponent (d_accessToken d);
                     maxAge := login_maxAge now (d_accessToken d) |})
  /\ (forall k, k <> TOKENS.ACCESS -> k <> TOKENS.REFRESH ->
        ls' !! k = ls !! k /\ jar' !! k = jar !! k).
Proof.
  rewrite login_success. cbn [snd]. intros [= <- <-].
  split; [|split; [|split; [|split]]].
  - rewrite lookup_insert_ne by discriminate. apply lookup_insert_eq.
  - apply lookup_insert_eq.
  - apply lookup_insert_eq.
  - rewrite lookup_insert_ne by discriminate. apply access_write_lookup.
  - intros k Ha Hr. split.
    + rewrite !lookup_insert_ne by congruence. reflexivity.
    + rewrite lookup_insert_ne by congruence. apply access_write_other. exact Ha.
Qed.

(** X12.  The [Authorization] header follows the session.  The headers
    carry [Bearer <token>] exactly when [isAuthenticated] holds, and
    [Content-Type: application/json] exactly when asked for a JSON body.
    After a logout, and after any request that met a 401, they carry no
    [Authorization]; after a successful login in a browser they carry the
    access token of that login. *)
Theorem headers_follow_session (now : Z) (json : bool) (h : Host) :
  assoc "Authorization" (headers json h)
  = (if isAuthenticated h then option_map (String.append "Bearer ") (getToken h) else None)
  /\ assoc "Content-Type" (headers json h)
     = (if json then Some "application/json" else None)
  /\ assoc "Authorization" (headers json (logout h)) = None
  /\ assoc "Authorization" (headers json (snd (request (T := unit) Http401 h))) = None
  /\ (forall d,
        window h <> None -> d_accessToken d <> "" ->
        assoc "Authorization"
          (headers json
             (snd (login now (HttpBody (Some {| success := true; data := Some d |})) h)))
        = Some ("Bearer " ++ d_accessToken d)).
Proof.
  split; [|split; [|split; [|split]]].
  - unfold headers, isAuthenticated, nonempty.
    destruct (getToken h) as [t|]; [|destruct json; reflexivity].
    destruct (String.eqb t ""); [destruct json; reflexivity|].
    cbn. reflexivity.
  - unfold headers. destruct (getToken h) as [t|]; [destruct (String.eqb t "")|];
      destruct json; reflexivity.
  - apply headers_no_token. apply getToken_clearToken.
  - apply headers_no_token. apply getToken_clearToken.
  - intros d Hw Hne. destruct h as [[ls|] dcm]; [|contradiction].
    assert (Hget : getToken (snd (login now
              (HttpBody (Some {| success := true; data := Some d |}))
              {| window := Some ls; document := dcm |})) = Some (d_accessToken d)).
    { destruct d as [a r u]. destruct dcm as [jar|];
        unfold login, request, setToken, setRefreshToken, getToken;
        cbn [window document snd d_accessToken d_refreshToken];
        rewrite lookup_insert_ne by discriminate; apply lookup_insert_eq. }
    unfold headers. rewrite Hget. apply String.eqb_neq in Hne. rewrite Hne.
    reflexivity.
Qed.

(** X13.  The loader and the session.  Without a token in store [load]
    answers with the redirect to [/login] whatever the server would have
    said, and leaves the host as it is; this is so after a [load] whose
    request met a 401 and after a logout.  With a token in store a profile
    in the body is returned as the user, and an empty body throws
    ["Failed to load profile"]. *)
Theorem load_after_unauthorized {T : Type} (o o' : HttpOutcome T) (h : Host) :
  (isAuthenticated h = false ->
   load o h = (Ok {| l_user := None; redirectTo := Some "/login" |}, h))
  /\ load o' (snd (load (T := T) Http401 h))
     = (Ok {| l_user := None; redirectTo := Some "/login" |}, snd (load (T := T) Http401 h))
  /\ load o' (logout h) = (Ok {| l_user := None; redirectTo := Some "/login" |}, logout h)
  /\ (forall me : T, isAuthenticated h = true ->
        load (HttpBody (Some me)) h = (Ok {| l_user := Some me; redirectTo := None |}, h))
  /\ (isAuthenticated h = true ->
        load (T := T) (HttpBody None) h = (Throw "Failed to load profile", h)).
Proof.
  assert (Hno : forall (o1 : HttpOutcome T) h1, isAuthenticated h1 = false ->
            load o1 h1 = (Ok {| l_user := None; redirectTo := Some "/login" |}, h1)).
  { intros o1 h1 E. unfold load. rewrite E. reflexivity. }
  assert (Hcleared : forall h1, isAuthenticated (clearToken h1) = false).
  { intros h1. unfold isAuthenticated. rewrite getToken_clearToken. reflexivity. }
  split; [apply Hno|]. split; [|split; [|split]].
  - apply Hno. unfold load. destruct (isAuthenticated h) eqn:E; cbn [negb snd].
    + apply Hcleared.
    + exact E.
  - apply Hno, Hcleared.
  - intros me E. unfold load. rewrite E. reflexivity.
  - intros E. unfold load. rewrite E. reflexivity.
Qed.


(** X30.  A logout locks the protected pages.  After a logout in a
    browser, a request to a protected path that carries the cookies the
    document holds has no access token among them: the gate redirects it to
    [/login] with [next] set, whatever the clock reads and whatever was
    stored before. *)
Theorem logout_locks_protected_pages (now : Z) (h : Host) (req : NextRequest) :
  window h <> None ->
  cookies req = sent_cookies (logout h) ->
  isProtected (pathname (nextUrl req)) = true ->
  cookies req !! TOKENS.ACCESS = None
  /\ cookies req !! TOKENS.REFRESH = None
  /\ middleware now req
     = {| action :=
            Redirect "/login"
              (params_set "next" (pathname (nextUrl req) ++ search (nextUrl req))
                 (searchParams (nextUrl req)));
          deleted := ["refreshToken"] |}.
Proof.
  intros Hw Hcookies Hprot.
  assert (Hnone : cookies req !! TOKENS.ACCESS = None /\ cookies req !! TOKENS.REFRESH = None).
  { rewrite Hcookies. unfold sent_cookies, logout, clearToken.
    destruct h as [[ls|] [jar|]]; cbn [window document]; try contradiction.
    - rewrite clear_writes_jar, !lookup_fmap.
      destruct (cleared_jar jar) as [-> ->]. split; reflexivity.
    - split; reflexivity. }
  destruct Hnone as [Ha Hr]. split; [exact Ha|]. split; [exact Hr|].
  unfold middleware. rewrite Hprot, Ha. reflexivity.
Qed.

End SessionFlows.

Section TokenObserver.

Lemma watch_step_in_sync (o : Observer) (e : WatchEvent) :
  calls o <> [] -> List.last (calls o) None = last o ->
  calls (watch_step o e) <> []
  /\ List.last (calls (watch_step o e)) None = last (watch_step o e).
Proof.
  intros Hne Hl. destruct e as [key newValue | h]; cbn [watch_step]; unfold onStorage, poll.
  - destruct (bool_decide _); [|split; assumption].
    unfold notify; cbn [calls last].
    split; [destruct (calls o); discriminate | apply last_last].
  - destruct (bool_decide _); [split; assumption|].
    unfold notify; cbn [calls last].
    split; [destruct (calls o); discriminate | apply last_last].
Qed.

Lemma run_in_sync (events : list WatchEvent) (o : Observer) :
  calls o <> [] -> List.last (calls o) None = last o ->
  calls (foldl watch_step o events) <> []
  /\ List.last (calls (foldl watch_step o events)) None = last (foldl watch_step o events).
Proof.
  revert o. induction events as [|e events IH]; intros o Hne Hl; cbn [foldl].
  - split; assumption.
  - destruct (watch_step_in_sync o e Hne Hl) as [Hne' Hl']. apply IH; assumption.
Qed.

Lemma watch_step_extends (o : Observer) (e : WatchEvent) :
  exists more, calls (watch_step o e) = (calls o ++ more)%list /\ (length more <= 1)%nat.
Proof.
  assert (Hsame : exists more, calls o = (calls o ++ more)%list /\ (length more <= 1)%nat).
  { exists []. rewrite app_nil_r. split; [reflexivity | cbn; lia]. }
  assert (Hmore : forall v, exists more,
             calls (notify v o) = (calls o ++ more)%list /\ (length more <= 1)%nat).
  { intros v. exists [v]. split; [reflexivity | cbn; lia]. }
  destruct e as [key newValue | h]; cbn [watch_step]; unfold onStorage, poll;
    destruct (bool_decide _); auto.
Qed.

Lemma run_extends (events : list WatchEvent) (o : Observer) :
  exists more, calls (foldl watch_step o events) = (calls o ++ more)%list
               /\ (length more <= length events)%nat.
Proof.
  revert o. induction events as [|e events IH]; intros o; cbn [foldl].
  - exists []. rewrite app_nil_r. split; [reflexivity | cbn; lia].
  - destruct (watch_step_extends o e) as (m1 & E1 & L1).
    destruct (IH (watch_step o e)) as (m2 & E2 & L2).
    exists (m1 ++ m2)%list. rewrite E2, E1, <- app_assoc. split; [reflexivity|].
    rewrite length_app. cbn [length]. lia.
Qed.

Lemma changes_only_snoc (l : list (option string)) (v : option string) :
  l <> [] -> changes_only l = true -> List.last l None <> v ->
  changes_only (l ++ [v]) = true.
Proof.
  induction l as [|a l IH]; [congruence|]. intros _ Hc Hv.
  destruct l as [|b l].
  - cbn in Hv |- *. rewrite bool_decide_eq_false_2 by exact Hv. reflexivity.
  - cbn [app changes_only] in Hc |- *. apply andb_true_iff in Hc as [Hab Hc].
    rewrite Hab. cbn [andb]. apply IH; [discriminate | exact Hc | exact Hv].
Qed.

Lemma ticks_change_only (events : list WatchEvent) (o : Observer) :
  forallb is_tick events = true ->
  calls o <> [] -> List.last (calls o) None = last o -> changes_only (calls o) = true ->
  changes_only (calls (foldl watch_step o events)) = true.
Proof.
  revert o. induction events as [|e events IH]; intros o Ht Hne Hl Hc; cbn [foldl];
    [exact Hc|].
  cbn [forallb] in Ht. apply andb_true_iff in Ht as [He Ht].
  destruct (watch_step_in_sync o e Hne Hl) as [Hne' Hl'].
  apply IH; try assumption.
  destruct e as [|h]; [discriminate He|]. cbn [watch_step]. unfold poll.
  destruct (bool_decide_reflect (getToken h = last o)) as [E|E]; [exact Hc|].
  unfold notify; cbn [calls]. apply changes_only_snoc; [exact Hne | exact Hc|].
  rewrite Hl. intros E'. apply E. symmetry. exact E'.
Qed.

(** X14.  An observer stays in step with its callback.  Whatever storage
    events and ticks reach an observer that [observeToken] started: its
    first call carried the token that was in store when it started; the
    closure variable [last] is always the argument of the most recent
    call; there is at most one call per event after the first; right after
    a tick [last] is the token in store at that tick; and while only ticks
    arrive, no two calls in a row carry the same value. *)
Theorem observer_stays_in_sync (h : Host) (events : list WatchEvent) :
  let o := foldl watch_step (started h) events in
  hd_error (calls o) = Some (getToken h)
  /\ List.last (calls o) None = last o
  /\ (length (calls o) <= S (length events))%nat
  /\ (forall before h', events = (before ++ [Tick h'])%list -> last o = getToken h')
  /\ (forallb is_tick events = true -> changes_only (calls o) = true).
Proof.
  cbv zeta.
  destruct (run_extends events (started h)) as (more & E & L).
  destruct (run_in_sync events (started h)) as [Hne Hl]; [discriminate | reflexivity|].
  split; [rewrite E; reflexivity|]. split; [exact Hl|]. split; [|split].
  - rewrite E, length_app. cbn [started calls length]. lia.
  - intros before h' ->. rewrite foldl_app. cbn [foldl watch_step]. unfold poll.
    destruct (bool_decide_reflect (getToken h' = last (foldl watch_step (started h) before)))
      as [Eq|Eq]; [symmetry; exact Eq | reflexivity].
  - intros Ht. apply ticks_change_only; [exact Ht | discriminate | reflexivity | reflexivity].
Qed.

Lemma not_elem_of_remove (k : positive) (s : gset positive) : k ∉ (s ∖ {[k]}).
Proof. rewrite elem_of_difference, elem_of_singleton. intros [_ H]. apply H. reflexivity. Qed.

Lemma elem_of_remove_other (k t : positive) (s : gset positive) :
  k <> t -> k ∈ s -> k ∈ (s ∖ {[t]}).
Proof.
  intros Hne Hin. rewrite elem_of_difference, elem_of_singleton. split; assumption.
Qed.

(** X15.  The function [observeToken] returns clears the timer that the
    service's one field names.  For a run that is the latest, that is its
    own timer: after the call neither its listener nor its timer is
    registered, and no storage event and no tick reaches its observer.
    When a second run has started in between, the call of the first run's
    function removes the first listener but clears the second run's timer:
    the first timer stays registered and keeps polling for the first
    observer, the second observer is no longer polled, and the second
    run's function then leaves the first timer registered as well. *)
Theorem unsubscribe_stops_current_timer (h h' at_tick : Host) (w w1 w2 : Watchers)
    (k1 k2 : positive) :
  observeToken h w = (Some k1, w1) ->
  ((k1 ∉ listeners (unsubscribe k1 w1))
   /\ (k1 ∉ intervals (unsubscribe k1 w1))
   /\ (forall key newValue,
         observers (deliver_storage key newValue (unsubscribe k1 w1)) !! k1
         = observers w1 !! k1)
   /\ observers (deliver_tick k1 at_tick (unsubscribe k1 w1)) !! k1 = observers w1 !! k1)
  /\ (observeToken h' w1 = (Some k2, w2) ->
      (k1 ∉ listeners (unsubscribe k1 w2))
      /\ (k1 ∈ intervals (unsubscribe k1 w2))
      /\ (k2 ∉ intervals (unsubscribe k1 w2))
      /\ (k2 ∈ listeners (unsubscribe k1 w2))
      /\ observers (deliver_tick k1 at_tick (unsubscribe k1 w2)) !! k1
         = poll at_tick <$> observers w2 !! k1
      /\ observers (deliver_tick k2 at_tick (unsubscribe k1 w2)) !! k2
         = observers w2 !! k2
      /\ (k1 ∈ intervals (unsubscribe k2 (unsubscribe k1 w2)))).
Proof.
  unfold observeToken. destruct (window h) as [ls|]; [|discriminate].
  intros [= <- <-]. split.
  - unfold unsubscribe, deliver_storage, deliver_tick.
    cbn [listeners intervals tokenWatchTimer observers].
    split; [apply not_elem_of_remove|]. split; [apply not_elem_of_remove|]. split.
    + intros key newValue. rewrite map_lookup_imap.
      rewrite bool_decide_eq_false_2 by apply not_elem_of_remove.
      destruct (_ !! nextHandle w); reflexivity.
    + rewrite bool_decide_eq_false_2 by apply not_elem_of_remove. reflexivity.
  - destruct (window h') as [ls'|]; [|discriminate].
    cbn [nextHandle]. intros [= <- <-].
    assert (Hne : nextHandle w <> (nextHandle w + 1)%positive) by lia.
    assert (Hkept : nextHandle w
                    ∈ ({[(nextHandle w + 1)%positive]} ∪ ({[nextHandle w]} ∪ intervals w))
                      ∖ {[(nextHandle w + 1)%positive]}).
    { apply elem_of_remove_other; [exact Hne|].
      apply elem_of_union_r, elem_of_union_l, elem_of_singleton. reflexivity. }
    unfold unsubscribe, deliver_tick.
    cbn [listeners intervals tokenWatchTimer observers].
    split; [apply not_elem_of_remove|]. split; [exact Hkept|].
    split; [apply not_elem_of_remove|]. split; [|split; [|split]].
    + apply elem_of_remove_other; [congruence|].
      apply elem_of_union_l, elem_of_singleton. reflexivity.
    + rewrite bool_decide_eq_true_2 by exact Hkept. apply lookup_alter_eq.
    + rewrite bool_decide_eq_false_2 by apply not_elem_of_remove. reflexivity.
    + exact Hkept.
Qed.


(** X29.  An observer learns of a logout and of a login at its next tick.
    On the host a logout leaves, the tick sets [last] to [null], and calls
    the callback with [null] unless [null] was the last value reported; on
    the browser a successful login leaves, the tick sets [last] to the
    access token of the login, and calls the callback with it unless it
    was the last value reported. *)
Theorem observer_learns_of_login_and_logout `{R : Runtime} (now : Z) (h : Host)
    (o : Observer) (d : LoginData) :
  last (poll (logout h) o) = None
  /\ (last o <> None -> calls (poll (logout h) o) = (calls o ++ [None])%list)
  /\ (window h <> None ->
      let h' := snd (login now (HttpBody (Some {| success := true; data := Some d |})) h) in
      last (poll h' o) = Some (d_accessToken d)
      /\ (last o <> Some (d_accessToken d) ->
          calls (poll h' o) = (calls o ++ [Some (d_accessToken d)])%list)).
Proof.
  assert (Hpoll : forall host v, getToken host = v ->
            last (poll host o) = v
            /\ (last o <> v -> calls (poll host o) = (calls o ++ [v])%list)).
  { intros host v Hv. unfold poll. rewrite Hv.
    destruct (bool_decide_reflect (v = last o)) as [E|E].
    - split; [symmetry; exact E | intros Hne; exfalso; apply Hne; symmetry; exact E].
    - split; reflexivity. }
  split; [|split].
  - apply Hpoll. apply getToken_clearToken.
  - apply Hpoll. apply getToken_clearToken.
  - intros Hw. cbv zeta. apply Hpoll.
    destruct h as [[ls|] dcm]; [|contradiction].
    destruct d as [a r u]. destruct dcm as [jar|];
      unfold login, request, setToken, setRefreshToken, getToken;
      cbn [window document snd d_accessToken d_refreshToken];
      rewrite lookup_insert_ne by discriminate; apply lookup_insert_eq.
Qed.

End TokenObserver.

Section Tokens.
Context `{R : Runtime}.






Lemma jwt_sign_not_empty (now : Z) (payload : list (string * json)) (secret : string)
    (d : Z) :
  String.eqb (jwt_sign now payload secret d) "" = false.
Proof. unfold jwt_sign. rewrite append_assoc. apply compact_not_empty. Qed.

(** What the lookup's [where] clause lets through. *)
Lemma find_matches (db : list DbUser) (identifier : string) (row : DbUser) :
  find (matches identifier) db = Some row ->
  In row db
  /\ (u_username row = identifier
      \/ (includes "@" identifier = true /\ u_email row = toLowerCase identifier)
      \/ (includes "@" identifier = false /\ u_username row = "__nope__")).
Proof.
  intros Hf. apply find_some in Hf as [Hin Hm]. split; [exact Hin|].
  unfold matches in Hm. apply orb_true_iff in Hm as [Hm|Hm].
  - left. apply String.eqb_eq. exact Hm.
  - right. destruct (includes "@" identifier).
    + left. split; [reflexivity | apply String.eqb_eq; exact Hm].
    + right. split; [reflexivity | apply String.eqb_eq; exact Hm].
Qed.

(** The result of [authenticate] when it returns. *)
Lemma authenticate_inv (cfg : Config) (db : list DbUser) (now : Z)
    (identifier password : string) (r : AuthResult) :
  snd (authenticate cfg db now identifier password) = Ok r ->
  r = no_user
  \/ exists row d d',
       find (matches identifier) db = Some row
       /\ bcrypt_compare password (u_password row) = true
       /\ ms (JWT_ACCESS_TTL cfg) = Some d /\ ms (JWT_REFRESH_TTL cfg) = Some d'
       /\ r = {| user := Some (publicUser row);
                 accessToken :=
                   Some (jwt_sign now (access_payload row) (JWT_ACCESS_SECRET cfg) (d / 1000));
                 refreshToken :=
                   Some (jwt_sign now (refresh_payload row) (JWT_REFRESH_SECRET cfg)
                           (d' / 1000)) |}.
Proof.
  rewrite authenticate_cases.
  destruct (find (matches identifier) db) as [row|] eqn:Hrow.
  2:{ cbn [snd]. intros [= <-]. left. reflexivity. }
  destruct (bcrypt_compare password (u_password row)) eqn:Hok.
  2:{ cbn [snd]. intros [= <-]. left. reflexivity. }
  destruct (ms (JWT_ACCESS_TTL cfg)) as [d|] eqn:Hd; [|discriminate].
  destruct (ms (JWT_REFRESH_TTL cfg)) as [d'|] eqn:Hd'; [|discriminate].
  cbn [snd]. intros [= <-]. right. exists row, d, d'.
  split; [reflexivity|]. split; [exact Hok|]. repeat split.
Qed.

Lemma authGuard_bearer (cfg : Config) (now : Z) (t : string) :
  authGuard cfg now (Some ("Bearer " ++ t))
  = if String.eqb t "" then Rejected 401 "Unauthorized"
    else match verifyJwt now t (JWT_ACCESS_SECRET cfg) with
         | Ok payload =>
             match prop "sub" payload with
             | Some sub => if truthy (Some sub) then Authorized sub
                           else Rejected 401 "Unauthorized"
             | None => Rejected 401 "Unauthorized"
             end
         | Throw _ => Rejected 401 "Unauthorized"
         end.
Proof. reflexivity. Qed.



(** X18.  [authenticate] is sound.  When it returns a user, that user is
    the public part of a row of the table whose stored hash the given
    password matched; the row's username is the identifier, or the
    identifier has an [@] and the row's email is its lower case, or the
    identifier has no [@] and the row's username is ["__nope__"] (the
    placeholder of the [where] clause); both lifetimes were durations, the
    two tokens are the ones signed for that row at the clock reading, and
    the run made one lookup, one comparison and two signatures, in that
    order. *)
Theorem authenticate_sound (cfg : Config) (db : list DbUser) (now : Z)
    (identifier password : string) (r : AuthResult) (u : PublicUser) :
  snd (authenticate cfg db now identifier password) = Ok r ->
  user r = Some u ->
  exists row d d',
    In row db /\ u = publicUser row
    /\ bcrypt_compare password (u_password row) = true
    /\ (u_username row = identifier
        \/ (includes "@" identifier = true /\ u_email row = toLowerCase identifier)
        \/ (includes "@" identifier = false /\ u_username row = "__nope__"))
    /\ ms (JWT_ACCESS_TTL cfg) = Some d /\ ms (JWT_REFRESH_TTL cfg) = Some d'
    /\ accessToken r
       = Some (jwt_sign now (access_payload row) (JWT_ACCESS_SECRET cfg) (d / 1000))
    /\ refreshToken r
       = Some (jwt_sign now (refresh_payload row) (JWT_REFRESH_SECRET cfg) (d' / 1000))
    /\ fst (authenticate cfg db now identifier password)
       = [DbFindFirst identifier; BcryptCompare password (u_password row);
          JwtSign (JWT_ACCESS_SECRET cfg); JwtSign (JWT_REFRESH_SECRET cfg)].
Proof.
  intros Hauth Hu.
  destruct (authenticate_inv _ _ _ _ _ _ Hauth)
    as [-> | (row & d & d' & Hrow & Hok & Hd & Hd' & ->)]; [discriminate Hu|].
  cbn [user] in Hu. injection Hu as <-.
  destruct (find_matches _ _ _ Hrow) as [Hin Hm].
  exists row, d, d'. split; [exact Hin|]. split; [reflexivity|]. split; [exact Hok|].
  split; [exact Hm|]. split; [exact Hd|]. split; [exact Hd'|].
  split; [reflexivity|]. split; [reflexivity|].
  rewrite authenticate_cases, Hrow, Hok, Hd, Hd'. reflexivity.
Qed.

(** X19.  The placeholder of the [where] clause is a username.  When the
    first row of the table has the username ["__nope__"], every
    identifier without an [@] finds that row, whatever it spells: with
    that row's password [authenticate] signs in as that user, and the
    login endpoint answers 200 with that row's public part. *)
Theorem nope_username_matches_every_identifier (cfg : Config) (row : DbUser)
    (rest : list DbUser) (now : Z) (ident pass : string) (d d' : Z) :
  u_username row = "__nope__" -> includes "@" ident = false ->
  bcrypt_compare pass (u_password row) = true ->
  ms (JWT_ACCESS_TTL cfg) = Some d -> ms (JWT_REFRESH_TTL cfg) = Some d' ->
  exists tok rtok,
    snd (authenticate cfg (row :: rest) now ident pass)
    = Ok {| user := Some (publicUser row); accessToken := Some tok;
            refreshToken := Some rtok |}
    /\ snd (login_handler cfg (row :: rest) now
              {| validationError := None;
                 body := {| identifier := ident; password := pass |} |})
       = Ok {| code := 200;
               sent := Success {| user := Some (publicUser row); accessToken := Some tok;
                                  refreshToken := Some rtok |} |}.
Proof.
  intros Hname Hat Hok Hd Hd'.
  assert (Hfind : find (matches ident) (row :: rest) = Some row).
  { cbn [find]. unfold matches. rewrite Hat, Hname. cbn.
    rewrite orb_true_r. reflexivity. }
  eexists _, _. split.
  - rewrite authenticate_cases, Hfind, Hok, Hd, Hd'. reflexivity.
  - unfold login_handler. cbn [validationError body identifier password].
    rewrite authenticate_cases, Hfind, Hok, Hd, Hd'.
    cbn [bind ret user accessToken refreshToken nonempty].
    rewrite !jwt_sign_not_empty. cbn [negb orb].
    rewrite bool_decide_eq_true_2 by (eexists; reflexivity). reflexivity.
Qed.

Lemma find_agree {A : Type} (f g : A -> bool) (l : list A) :
  (forall x, In x l -> f x = g x) -> find f l = find g l.
Proof.
  induction l as [|x l IH]; intros H; [reflexivity|]. cbn [find].
  rewrite (H x) by (left; reflexivity). destruct (g x); [reflexivity|].
  apply IH. intros y Hy. apply H. right. exact Hy.
Qed.

(** On a table of usernames without [@] and other than the placeholder,
    the [where] clause is the lookup as described. *)
Lemma matches_by_username_or_email (db : list DbUser) (identifier : string) :
  (forall row, In row db ->
     includes "@" (u_username row) = false /\ u_username row <> "__nope__") ->
  find (matches identifier) db = find (by_username_or_email identifier) db.
Proof.
  intros Hdb. apply find_agree. intros row Hin.
  destruct (Hdb row Hin) as [Hat Hnope].
  unfold matches, by_username_or_email.
  destruct (includes "@" identifier) eqn:Hid.
  - destruct (String.eqb_spec (u_username row) identifier) as [E|_]; [|reflexivity].
    rewrite E in Hat. congruence.
  - apply String.eqb_neq in Hnope. rewrite Hnope. apply orb_false_r.
Qed.

(** X27.  The lookup is by username or by email, and the email ignores
    case.  On a table in which no username has an [@] or is
    ["__nope__"] (the registration schema admits no [@]), the lookup
    finds the first row whose email is the lower case of the identifier
    when the identifier has an [@], and the first row whose username is the
    identifier when it has none; so two identifiers with an [@] and the
    same lower case get the same result from [authenticate] with the same
    password. *)
Theorem lookup_is_by_username_or_email (cfg : Config) (db : list DbUser) (now : Z)
    (a b pass : string) :
  (forall row, In row db ->
     includes "@" (u_username row) = false /\ u_username row <> "__nope__") ->
  findFirst db a = ([DbFindFirst a], Ok (find (by_username_or_email a) db))
  /\ (includes "@" a = true -> includes "@" b = true -> toLowerCase a = toLowerCase b ->
      snd (authenticate cfg db now a pass) = snd (authenticate cfg db now b pass)).
Proof.
  intros Hdb. split.
  - unfold findFirst. cbn [bind emit ret app].
    rewrite (matches_by_username_or_email db a Hdb). reflexivity.
  - intros Ha Hb Hlow. rewrite !authenticate_cases.
    rewrite (matches_by_username_or_email db a Hdb), (matches_by_username_or_email db b Hdb).
    assert (Hsame : find (by_username_or_email a) db = find (by_username_or_email b) db).
    { apply find_agree. intros row _. unfold by_username_or_email.
      rewrite Ha, Hb, Hlow. reflexivity. }
    rewrite Hsame. destruct (find (by_username_or_email b) db) as [row|]; [|reflexivity].
    destruct (bcrypt_compare pass (u_password row)); [|reflexivity].
    destruct (ms (JWT_ACCESS_TTL cfg)); [|reflexivity].
    destruct (ms (JWT_REFRESH_TTL cfg)); reflexivity.
Qed.

(** X28.  A lifetime that is no duration.  When one of the two
    configured lifetimes does not parse, a login with matching credentials
    makes its one comparison and then throws instead of replying, after no
    signature or after the access token's alone, while a login that fails
    the schema, finds no row or has the wrong password still gets the 401
    reply. *)
Theorem misconfigured_lifetime_throws (cfg : Config) (db : list DbUser) (now : Z)
    (r : LoginReq) :
  ms (JWT_ACCESS_TTL cfg) = None \/ ms (JWT_REFRESH_TTL cfg) = None ->
  (forall row,
     validationError r = None ->
     find (matches (identifier (body r))) db = Some row ->
     bcrypt_compare (password (body r)) (u_password row) = true ->
     snd (login_handler cfg db now r) = Throw "expiresIn"
     /\ compares (fst (login_handler cfg db now r))
        = [(password (body r), u_password row)]
     /\ (fst (login_handler cfg db now r)
         = [DbFindFirst (identifier (body r));
            BcryptCompare (password (body r)) (u_password row)]
         \/ fst (login_handler cfg db now r)
            = [DbFindFirst (identifier (body r));
               BcryptCompare (password (body r)) (u_password row);
               JwtSign (JWT_ACCESS_SECRET cfg)]))
  /\ (validationError r <> None
      \/ find (matches (identifier (body r))) db = None
      \/ (exists row,
            find (matches (identifier (body r))) db = Some row
            /\ bcrypt_compare (password (body r)) (u_password row) = false) ->
      snd (login_handler cfg db now r)
      = Ok {| code := 401; sent := Failure "Invalid credentials" |}).
Proof.
  intros Hbad. split.
  - intros row Hv Hrow Hok. unfold login_handler. rewrite Hv, authenticate_cases, Hrow, Hok.
    destruct (ms (JWT_ACCESS_TTL cfg)) as [d|].
    + destruct Hbad as [Hbad|Hbad]; [discriminate Hbad|]. rewrite Hbad.
      split; [reflexivity|]. split; [reflexivity | right; reflexivity].
    + split; [reflexivity|]. split; [reflexivity | left; reflexivity].
  - intros Hcause. unfold login_handler.
    destruct (validationError r) as [err|]; [reflexivity|].
    rewrite authenticate_cases.
    destruct Hcause as [Hv | [Hnone | (row & Hrow & Hwrong)]].
    + contradiction.
    + rewrite Hnone. reflexivity.
    + rewrite Hrow, Hwrong. reflexivity.
Qed.

(** X21.  What the login endpoint answers.  With both lifetimes
    configured as durations the handler always replies, with status 200 or
    with the one 401 reply; the status is 200 exactly when the body passed
    the schema, the identifier found a row and the password matched its
    hash, and the body is then that row's public part with the two signed
    tokens.  A request that failed the schema is answered without a
    lookup, a comparison or a signature: the only event is the warning. *)
Theorem login_handler_replies (cfg : Config) (db : list DbUser) (now : Z) (r : LoginReq)
    (d d' : Z) :
  ms (JWT_ACCESS_TTL cfg) = Some d -> ms (JWT_REFRESH_TTL cfg) = Some d' ->
  exists reply,
    snd (login_handler cfg db now r) = Ok reply
    /\ (code reply = 200 \/ reply = {| code := 401; sent := Failure "Invalid credentials" |})
    /\ (code reply = 200 <->
        validationError r = None
        /\ exists row, find (matches (identifier (body r))) db = Some row
                       /\ bcrypt_compare (password (body r)) (u_password row) = true)
    /\ (forall row,
          validationError r = None ->
          find (matches (identifier (body r))) db = Some row ->
          bcrypt_compare (password (body r)) (u_password row) = true ->
          reply = {| code := 200;
                     sent := Success
                       {| user := Some (publicUser row);
                          accessToken :=
                            Some (jwt_sign now (access_payload row) (JWT_ACCESS_SECRET cfg)
                                    (d / 1000));
                          refreshToken :=
                            Some (jwt_sign now (refresh_payload row) (JWT_REFRESH_SECRET cfg)
                                    (d' / 1000)) |} |})
    /\ (validationError r <> None ->
        fst (login_handler cfg db now r) = [LogWarn "Login schema failed"]).
Proof.
  intros Hd Hd'. unfold login_handler.
  destruct (validationError r) as [err|].
  - eexists. split; [reflexivity|]. split; [right; reflexivity|]. split; [|split].
    + cbn [code]. split; [discriminate | intros [[=] _]].
    + intros row [=].
    + intros _. reflexivity.
  - rewrite authenticate_cases, Hd, Hd'.
    destruct (find (matches (identifier (body r))) db) as [row|].
    + destruct (bcrypt_compare (password (body r)) (u_password row)) eqn:Hok.
      * cbn [bind ret user accessToken refreshToken nonempty].
        rewrite !jwt_sign_not_empty. cbn [negb orb bool_decide].
        rewrite bool_decide_eq_true_2 by (eexists; reflexivity). cbn [negb orb snd].
        eexists. split; [reflexivity|]. split; [left; reflexivity|]. split; [|split].
        -- cbn [code]. split; [|reflexivity]. intros _. split; [reflexivity|].
           exists row. split; [reflexivity | exact Hok].
        -- intros row' _ [= <-] _. reflexivity.
        -- intros Hv. contradiction.
      * eexists. split; [reflexivity|]. split; [right; reflexivity|]. split; [|split].
        -- cbn [code]. split; [discriminate|].
           intros [_ (row' & [= <-] & Hok')]. congruence.
        -- intros row' _ [= <-] Hok'. congruence.
        -- intros Hv. contradiction.
    + eexists. split; [reflexivity|]. split; [right; reflexivity|]. split; [|split].
      * cbn [code]. split; [discriminate|]. intros [_ (row' & [=] & _)].
      * intros row' _ [=].
      * intros Hv. contradiction.
Qed.


Context {L : RuntimeLaws R}.

(** A signed token read back under a secret, at any clock reading. *)
Lemma jwt_verify_signed (now now' : Z) (payload : list (string * json))
    (secret secret' : string) (expiresIn : Z) :
  assoc "nbf" payload = None ->
  jwt_verify now' (jwt_sign now payload secret expiresIn) secret' ["HS256"]
  = if negb (String.eqb (HS256 secret' (signing_input now payload expiresIn))
                        (HS256 secret (signing_input now payload expiresIn)))
    then Throw "invalid signature"
    else if seconds now + expiresIn <=? seconds now' then Throw "jwt expired"
    else Ok (JObj (signed_claims now payload expiresIn)).
Proof.
  intros Hnbf. unfold jwt_verify, jwt_sign, signing_input.
  set (claims := signed_claims now payload expiresIn).
  set (h := segment jwt_header). set (p := segment (JObj claims)).
  set (s := HS256 secret (h ++ "." ++ p)).
  assert (Hsplit : split "." ((h ++ "." ++ p) ++ "." ++ s) = [h; p; s]).
  { rewrite append_assoc. apply split_compact; apply b64url_string_no_dot.
    - apply segment_alphabet.
    - apply segment_alphabet.
    - apply HS256_alphabet. }
  rewrite Hsplit. cbn [length Nat.eqb negb nth].
  unfold valid_compact. subst h p.
  rewrite !segment_not_empty, !segment_alphabet. subst s.
  rewrite HS256_alphabet. cbn [negb andb].
  rewrite !segment_parses.
  destruct (String.eqb_spec (HS256 secret (segment jwt_header ++ "." ++ segment (JObj claims))) "")
    as [E|_]; [exfalso; exact (HS256_nonempty _ _ E)|].
  cbn [jwt_header prop assoc]. cbn [String.eqb Ascii.eqb Bool.eqb existsb orb negb].
  destruct (negb (String.eqb _ _)); [reflexivity|].
  unfold check_nbf, check_exp, prop, claims, signed_claims.
  rewrite !assoc_obj_set_other by discriminate. rewrite Hnbf, assoc_obj_set.
  destruct (seconds now + expiresIn <=? seconds now'); reflexivity.
Qed.

Lemma jwt_verify_signed_same (now now' : Z) (payload : list (string * json))
    (secret : string) (expiresIn : Z) :
  assoc "nbf" payload = None ->
  jwt_verify now' (jwt_sign now payload secret expiresIn) secret ["HS256"]
  = if seconds now + expiresIn <=? seconds now' then Throw "jwt expired"
    else Ok (JObj (signed_claims now payload expiresIn)).
Proof.
  intros Hnbf. rewrite jwt_verify_signed by exact Hnbf.
  rewrite String.eqb_refl. reflexivity.
Qed.


(** X20.  The refresh token.  A refresh token [authenticate] returns
    verifies under the refresh secret until its own [exp] ([iat] plus the
    refresh lifetime) and throws ["jwt expired"] from then on; its claims
    are [sub] (the id of the row that signed in), [type] with the value
    ["refresh"], [iat] and [exp], and no [username]. *)
Theorem issued_refresh_token_verifies (cfg : Config) (db : list DbUser) (now now' : Z)
    (identifier password : string) (r : AuthResult) (rtok : string) :
  snd (authenticate cfg db now identifier password) = Ok r ->
  refreshToken r = Some rtok ->
  exists row d',
    In row db /\ user r = Some (publicUser row)
    /\ ms (JWT_REFRESH_TTL cfg) = Some d'
    /\ verifyJwt now' rtok (JWT_REFRESH_SECRET cfg)
       = if seconds now + d' / 1000 <=? seconds now' then Throw "jwt expired"
         else Ok (JObj [("sub", JStr (u_id row)); ("type", JStr "refresh");
                        ("iat", JNum (seconds now));
                        ("exp", JNum (seconds now + d' / 1000))]).
Proof.
  intros Hauth Htok.
  destruct (authenticate_inv _ _ _ _ _ _ Hauth)
    as [-> | (row & d & d' & Hrow & _ & _ & Hd' & ->)]; [discriminate Htok|].
  injection Htok as <-.
  exists row, d'. split; [apply (find_matches _ _ _ Hrow)|]. split; [reflexivity|].
  split; [exact Hd'|]. unfold verifyJwt.
  rewrite jwt_verify_signed_same by reflexivity. reflexivity.
Qed.

(** X23.  The guard admits the access token of a login until it expires.
    For a user with an id that is not empty, the header [Bearer] followed
    by the access token [authenticate] returned is admitted with that
    user's id as the user id at every clock reading before the token's
    [exp], and rejected with 401 from the second [exp] on. *)
Theorem authGuard_admits_issued_token (cfg : Config) (db : list DbUser) (now now' : Z)
    (identifier password : string) (r : AuthResult) (u : PublicUser) (tok : string) :
  snd (authenticate cfg db now identifier password) = Ok r ->
  user r = Some u -> accessToken r = Some tok -> p_id u <> "" ->
  exists d,
    ms (JWT_ACCESS_TTL cfg) = Some d
    /\ authGuard cfg now' (Some ("Bearer " ++ tok))
       = if seconds now + d / 1000 <=? seconds now' then Rejected 401 "Unauthorized"
         else Authorized (JStr (p_id u)).
Proof.
  intros Hauth Hu Htok Hid.
  destruct (authenticate_inv _ _ _ _ _ _ Hauth)
    as [-> | (row & d & d' & _ & _ & Hd & _ & ->)]; [discriminate Hu|].
  cbn [user accessToken] in Hu, Htok. injection Hu as <-. injection Htok as <-.
  exists d. split; [exact Hd|].
  rewrite authGuard_bearer, jwt_sign_not_empty. unfold verifyJwt.
  rewrite jwt_verify_signed_same by reflexivity.
  destruct (seconds now + d / 1000 <=? seconds now'); [reflexivity|].
  cbn [prop signed_claims access_payload obj_set assoc String.eqb Ascii.eqb Bool.eqb].
  cbn [publicUser p_id] in Hid. apply String.eqb_neq in Hid.
  cbn [truthy]. rewrite Hid. reflexivity.
Qed.

(** X24.  The guard tells the two tokens apart by the secret alone.  The
    refresh token of a login, sent as a bearer token, is rejected with 401
    when the access secret gives the signed text another HS256 value than
    the refresh secret did; when the two secrets are the same string it is
    admitted as that user until the refresh token's own [exp], since the
    guard does not read the [type] claim. *)
Theorem refresh_token_as_bearer (cfg : Config) (db : list DbUser) (now now' : Z)
    (identifier password : string) (r : AuthResult) (u : PublicUser) (rtok : string) :
  snd (authenticate cfg db now identifier password) = Ok r ->
  user r = Some u -> refreshToken r = Some rtok -> p_id u <> "" ->
  exists row d',
    u = publicUser row /\ ms (JWT_REFRESH_TTL cfg) = Some d'
    /\ (HS256 (JWT_ACCESS_SECRET cfg) (signing_input now (refresh_payload row) (d' / 1000))
        <> HS256 (JWT_REFRESH_SECRET cfg)
             (signing_input now (refresh_payload row) (d' / 1000)) ->
        authGuard cfg now' (Some ("Bearer " ++ rtok)) = Rejected 401 "Unauthorized")
    /\ (JWT_ACCESS_SECRET cfg = JWT_REFRESH_SECRET cfg ->
        seconds now' < seconds now + d' / 1000 ->
        authGuard cfg now' (Some ("Bearer " ++ rtok)) = Authorized (JStr (p_id u))).
Proof.
  intros Hauth Hu Htok Hid.
  destruct (authenticate_inv _ _ _ _ _ _ Hauth)
    as [-> | (row & d & d' & _ & _ & _ & Hd' & ->)]; [discriminate Hu|].
  cbn [user refreshToken] in Hu, Htok. injection Hu as <-. injection Htok as <-.
  exists row, d'. split; [reflexivity|]. split; [exact Hd'|].
  rewrite authGuard_bearer, jwt_sign_not_empty. unfold verifyJwt. split.
  - intros Hmac. rewrite jwt_verify_signed by reflexivity.
    apply String.eqb_neq in Hmac. rewrite Hmac. reflexivity.
  - intros Hsame Hlive. rewrite Hsame. rewrite jwt_verify_signed_same by reflexivity.
    destruct (Z.leb_spec (seconds now + d' / 1000) (seconds now')); [lia|].
    cbn [prop signed_claims refresh_payload obj_set assoc String.eqb Ascii.eqb Bool.eqb].
    cbn [publicUser p_id] in Hid. apply String.eqb_neq in Hid.
    cbn [truthy]. rewrite Hid. reflexivity.
Qed.

End Tokens.

Section Journey.
Context `{R : Runtime} {L : RuntimeLaws R} {B : BrowserLaws R}.

Lemma compact_text_app (a b : string) :
  compact_text a = true -> compact_text b = true -> compact_text (a ++ b) = true.
Proof.
  induction a as [|c a IH]; cbn [compact_text String.append]; [auto|].
  intros Ha Hb. apply andb_true_iff in Ha as [Hc Ha]. rewrite Hc, (IH Ha Hb). reflexivity.
Qed.

Lemma compact_text_b64url (s : string) : b64url_string s = true -> compact_text s = true.
Proof.
  induction s as [|c s IH]; cbn [compact_text b64url_string]; [auto|].
  intros H. apply andb_true_iff in H as [Hc Hs]. rewrite Hc, (IH Hs). reflexivity.
Qed.

(** A signed token is written in the URL alphabet and dots. *)
Lemma jwt_sign_compact_text (now : Z) (payload : list (string * json)) (secret : string)
    (d : Z) :
  compact_text (jwt_sign now payload secret d) = true.
Proof.
  unfold jwt_sign.
  apply compact_text_app; [apply compact_text_app; [|apply compact_text_app] |
                           apply compact_text_app];
    try reflexivity; apply compact_text_b64url;
    first [apply segment_alphabet | apply HS256_alphabet].
Qed.

Lemma jwt_sign_parts (now : Z) (payload : list (string * json)) (secret : string) (d : Z) :
  split "." (jwt_sign now payload secret d)
  = [segment jwt_header; segment (JObj (signed_claims now payload d));
     HS256 secret (segment jwt_header ++ "." ++ segment (JObj (signed_claims now payload d)))].
Proof.
  unfold jwt_sign. rewrite append_assoc. apply split_compact; apply b64url_string_no_dot.
  - apply segment_alphabet.
  - apply segment_alphabet.
  - apply HS256_alphabet.
Qed.

(** The advisory check on a token the server signed. *)
Lemma isExpiredJwt_jwt_sign (now now' : Z) (payload : list (string * json))
    (secret : string) (d : Z) :
  isExpiredJwt now' (Some (jwt_sign now payload secret d))
  = (seconds now + d <=? seconds now').
Proof.
  unfold isExpiredJwt, decode_payload.
  rewrite jwt_sign_not_empty, jwt_sign_parts. cbn [length Nat.eqb negb nth].
  rewrite base64_either_alphabet, segment_parses.
  unfold prop, signed_claims. rewrite assoc_obj_set. reflexivity.
Qed.

(** X25.  The gate and the API agree on the tokens the server issues.
    For the access token of a login, the gate's advisory check (which
    verifies nothing) flags the token exactly from the second of its [exp]
    on: it does not flag it exactly when [verifyJwt] accepts it under the
    access secret, and flags it exactly when [verifyJwt] throws
    ["jwt expired"]. *)
Theorem gate_agrees_with_verifyJwt (cfg : Config) (db : list DbUser) (now now' : Z)
    (identifier password : string) (r : AuthResult) (tok : string) :
  snd (authenticate cfg db now identifier password) = Ok r ->
  accessToken r = Some tok ->
  exists d,
    ms (JWT_ACCESS_TTL cfg) = Some d
    /\ isExpiredJwt now' (Some tok) = (seconds now + d / 1000 <=? seconds now')
    /\ (isExpiredJwt now' (Some tok) = false <->
        exists claims, verifyJwt now' tok (JWT_ACCESS_SECRET cfg) = Ok claims)
    /\ (isExpiredJwt now' (Some tok) = true <->
        verifyJwt now' tok (JWT_ACCESS_SECRET cfg) = Throw "jwt expired").
Proof.
  intros Hauth Htok.
  destruct (authenticate_inv _ _ _ _ _ _ Hauth) as [-> | (row & d & d' & _ & _ & Hd & _ & ->)];
    [discriminate Htok|].
  injection Htok as <-. exists d. split; [exact Hd|].
  rewrite isExpiredJwt_jwt_sign. split; [reflexivity|].
  unfold verifyJwt. rewrite jwt_verify_signed_same by reflexivity.
  destruct (seconds now + d / 1000 <=? seconds now'); split; split;
    try discriminate; try reflexivity.
  - intros [claims [=]].
  - intros _. eexists. reflexivity.
Qed.

(** X26.  From the login to the gate.  Let the server sign a user in at
    the clock reading [now], and let the client's [login] store the reply
    in a browser.  Then [getToken] gives the access token, and the access
    cookie, when the browser holds one after the login, holds the token
    character for character.  A request to a protected path that carries
    that cookie goes through, with no cookie touched, at every clock
    reading before the token's [exp]; from the second [exp] on it is
    redirected to [/login] and both token cookies are deleted. *)
Theorem issued_session_passes_gate (cfg : Config) (db : list DbUser) (now at_login now' : Z)
    (identifier password : string) (r : AuthResult) (tok rtok : string) (u : AuthUser)
    (ls : gmap string string) (jar : gmap string Cookie) (h' : Host) (c : Cookie)
    (jar' : gmap string Cookie) (req : NextRequest) :
  snd (authenticate cfg db now identifier password) = Ok r ->
  accessToken r = Some tok -> refreshToken r = Some rtok ->
  snd (login at_login
         (HttpBody (Some {| success := true;
                            data := Some {| d_accessToken := tok; d_refreshToken := rtok;
                                            d_user := u |} |}))
         {| window := Some ls; document := Some jar |}) = h' ->
  document h' = Some jar' -> jar' !! TOKENS.ACCESS = Some c ->
  cookies req !! TOKENS.ACCESS = Some (value c) ->
  isProtected (pathname (nextUrl req)) = true ->
  exists d,
    ms (JWT_ACCESS_TTL cfg) = Some d
    /\ getToken h' = Some tok
    /\ value c = tok
    /\ (seconds now' < seconds now + d / 1000 ->
        middleware now' req = {| action := Next; deleted := [] |})
    /\ (seconds now + d / 1000 <= seconds now' ->
        middleware now' req
        = {| action :=
               Redirect "/login"
                 (params_set "next" (pathname (nextUrl req) ++ search (nextUrl req))
                    (searchParams (nextUrl req)));
             deleted := ["accessToken"; "refreshToken"] |}).
Proof.
  intros Hauth Htok Hrtok Hlogin Hdoc Hc Hreq Hprot.
  destruct (authenticate_inv _ _ _ _ _ _ Hauth) as [-> | (row & d & d' & _ & _ & Hd & _ & ->)];
    [discriminate Htok|].
  injection Htok as <-. clear Hrtok.
  rewrite login_success in Hlogin. cbn [snd d_accessToken d_refreshToken] in Hlogin.
  subst h'. cbn [document] in Hdoc. injection Hdoc as <-.
  rewrite lookup_insert_ne, access_write_lookup in Hc by discriminate.
  destruct (login_maxAge at_login _ =? 0); [discriminate Hc|].
  injection Hc as <-. cbn [value] in Hreq |- *.
  rewrite (encodeURIComponent_token _
             (jwt_sign_compact_text now (access_payload row) (JWT_ACCESS_SECRET cfg)
                (d / 1000))) in Hreq |- *.
  exists d. split; [exact Hd|]. split; [|split; [reflexivity|]].
  { unfold getToken. cbn [window]. rewrite lookup_insert_ne by discriminate.
    apply lookup_insert_eq. }
  unfold middleware. rewrite Hprot, Hreq, isExpiredJwt_jwt_sign.
  unfold nonempty, clear_cookies, nonempty. rewrite jwt_sign_not_empty. cbn [negb andb].
  split; intros Hclock.
  - destruct (Z.leb_spec (seconds now + d / 1000) (seconds now')); [lia|].
    cbn [negb]. rewrite (protected_not_auth_page _ Hprot). reflexivity.
  - destruct (Z.leb_spec (seconds now + d / 1000) (seconds now')); [|lia].
    reflexivity.
Qed.

End Journey.

Section ReferenceBase64.

(** Induction over a string three characters at a time. *)
Lemma string_by_threes (P : string -> Prop) :
  P "" ->
  (forall a, P (String a "")) ->
  (forall a b, P (String a (String b ""))) ->
  (forall a b c s, P s -> P (String a (String b (String c s)))) ->
  forall s, P s.
Proof.
  intros H0 H1 H2 H3 s.
  cut (P s /\ (forall a, P (String a s)) /\ (forall a b, P (String a (String b s)))).
  { intros [H _]. exact H. }
  induction s as [|c s [IH0 [IH1 IH2]]].
  - split; [exact H0|]. split; [exact H1 | exact H2].
  - split; [apply IH1|]. split; [intros a; apply IH2|]. intros a b. apply H3. exact IH0.
Qed.

Lemma char_sextet_char (x : sextet) : char_sextet (sextet_char x) = Some x.
Proof. destruct x as [[[[[[] []] []] []] []] []]; reflexivity. Qed.

Lemma sextet_or_zero_char (x : sextet) : sextet_or_zero (sextet_char x) = x.
Proof. unfold sextet_or_zero. rewrite char_sextet_char. reflexivity. Qed.

Lemma sextet_char_alphabet (x : sextet) : b64url_char (sextet_char x) = true.
Proof. destruct x as [[[[[[] []] []] []] []] []]; reflexivity. Qed.

Lemma ref_base64url_alphabet (s : string) : b64url_string (ref_base64url s) = true.
Proof.
  induction s as [| a | a b | a b c s IH] using string_by_threes.
  - reflexivity.
  - destruct a. simpl. rewrite !sextet_char_alphabet. reflexivity.
  - destruct a, b. simpl. rewrite !sextet_char_alphabet. reflexivity.
  - destruct a, b, c. simpl. rewrite !sextet_char_alphabet, IH. reflexivity.
Qed.

Lemma keep_every (f : ascii -> bool) (s : string) : every f s = true -> keep f s = s.
Proof.
  induction s as [|c s IH]; simpl; [reflexivity|].
  intros H. apply andb_true_iff in H as [Hc Hs]. rewrite Hc, (IH Hs). reflexivity.
Qed.

Lemma ref_base64url_decodable (s : string) :
  every (fun c => bool_decide (is_Some (char_sextet c))) (ref_base64url s) = true.
Proof.
  induction s as [| a | a b | a b c s IH] using string_by_threes.
  - reflexivity.
  - destruct a. simpl. rewrite !char_sextet_char. reflexivity.
  - destruct a, b. simpl. rewrite !char_sextet_char. reflexivity.
  - destruct a, b, c. simpl. rewrite !char_sextet_char, IH. reflexivity.
Qed.

Lemma sextets_to_bytes_base64url (s : string) : sextets_to_bytes (ref_base64url s) = s.
Proof.
  induction s as [| a | a b | a b c s IH] using string_by_threes.
  - reflexivity.
  - destruct a. simpl. rewrite !sextet_or_zero_char. reflexivity.
  - destruct a, b. simpl. rewrite !sextet_or_zero_char. reflexivity.
  - destruct a, b, c. simpl. rewrite !sextet_or_zero_char, IH. reflexivity.
Qed.

Lemma ref_base64_roundtrip (s : string) : ref_base64_to_utf8 (ref_base64url s) = s.
Proof.
  unfold ref_base64_to_utf8.
  rewrite (keep_every _ _ (ref_base64url_decodable s)).
  apply sextets_to_bytes_base64url.
Qed.

Lemma ref_base64url_nonempty (s : string) : ref_base64url s = "" -> s = "".
Proof.
  destruct s as [|[] [|[] [|[] s]]]; [reflexivity | discriminate | discriminate | discriminate].
Qed.

End ReferenceBase64.

Section ReferenceJson.

(** Induction over JSON values with the hypothesis for every element of
    an array and every member of an object. *)
Lemma json_nested_ind (P : json -> Prop) :
  P JNull -> (forall b, P (JBool b)) -> (forall n, P (JNum n)) -> (forall s, P (JStr s)) ->
  (forall items, Forall P items -> P (JArr items)) ->
  (forall fields, Forall (fun kx => P (snd kx)) fields -> P (JObj fields)) ->
  forall v, P v.
Proof.
  intros Hnull Hbool Hnum Hstr Harr Hobj.
  fix IH 1. intros [| b | n | s | items | fields].
  - exact Hnull.
  - apply Hbool.
  - apply Hnum.
  - apply Hstr.
  - apply Harr. induction items as [|x items IHitems]; constructor; [apply IH | exact IHitems].
  - apply Hobj. induction fields as [|kx fields IHfields]; constructor;
      [apply IH | exact IHfields].
Qed.

Lemma unescape_escape (s rest : string) :
  unescape (escape s ++ String dquote rest) = Some (s, rest).
Proof.
  induction s as [|c s IH]; simpl.
  - reflexivity.
  - destruct (needs_escape c) eqn:E; simpl.
    + rewrite E, IH. reflexivity.
    + unfold needs_escape in E. apply orb_false_iff in E as [E1 E2].
      rewrite E1, E2, IH. reflexivity.
Qed.

Lemma quote_append (s rest : string) :
  quote s ++ rest = String dquote (escape s ++ String dquote rest).
Proof. unfold quote. simpl. rewrite append_assoc. reflexivity. Qed.

Lemma uint_text_numeric (d : uint) : every is_num_char (NilEmpty.string_of_uint d) = true.
Proof. induction d; simpl; auto. Qed.

Lemma print_Z_numeric (z : Z) : every is_num_char (print_Z z) = true.
Proof.
  unfold print_Z. destruct (Z.to_int z) as [d|d]; simpl;
    [apply uint_text_numeric | apply uint_text_numeric].
Qed.

Lemma print_Z_parses (z : Z) :
  NilEmpty.int_of_string (print_Z z) = Some (Z.to_int z).
Proof. apply NilEmpty.isi. Qed.

Lemma print_Z_nonempty (z : Z) : print_Z z <> "".
Proof.
  intros E. pose proof (print_Z_parses z) as H. rewrite E in H. simpl in H.
  injection H as H. pose proof (DecimalZ.of_to z) as Hz. rewrite <- H in Hz.
  simpl in Hz. subst z. discriminate E.
Qed.

Lemma span_num_append (t rest : string) :
  every is_num_char t = true -> ends_number rest = true ->
  span_num (t ++ rest) = (t, rest).
Proof.
  intros Ht Hrest. induction t as [|c t IH]; simpl in *.
  - destruct rest as [|c rest]; [reflexivity|]. simpl in Hrest.
    apply negb_true_iff in Hrest. simpl. rewrite Hrest. reflexivity.
  - apply andb_true_iff in Ht as [Hc Ht]. rewrite Hc, (IH Ht). reflexivity.
Qed.

Lemma parse_number_print (z : Z) (rest : string) :
  ends_number rest = true ->
  parse_number (print_Z z ++ rest) = Some (JNum z, rest).
Proof.
  intros Hrest. unfold parse_number.
  rewrite (span_num_append _ _ (print_Z_numeric z) Hrest), print_Z_parses.
  rewrite DecimalZ.of_to, String.eqb_refl. reflexivity.
Qed.

Lemma print_Z_head (z : Z) (rest : string) :
  exists c t, print_Z z ++ rest = String c t /\ is_num_char c = true.
Proof.
  pose proof (print_Z_numeric z) as H. pose proof (print_Z_nonempty z) as N.
  destruct (print_Z z) as [|c t]; [contradiction|].
  simpl in H. apply andb_true_iff in H as [Hc _]. exists c, (t ++ rest).
  split; [reflexivity | exact Hc].
Qed.

(** The first character of a printed value opens it: it closes neither an
    array nor an object. *)
Lemma print_head (v : json) (rest : string) :
  exists c t, print v ++ rest = String c t
    /\ Ascii.eqb c "]" = false /\ Ascii.eqb c "}" = false.
Proof.
  destruct v as [| [] | n | s | items | fields]; simpl;
    try (eexists _, _; split; [reflexivity|split; reflexivity]).
  destruct (print_Z_head n rest) as (c & t & E & Hc). exists c, t. rewrite E.
  split; [reflexivity|].
  destruct c as [[] [] [] [] [] [] [] []]; try discriminate Hc; split; reflexivity.
Qed.

Lemma items_text_cons (pr : json -> string) (x : json) (rest : list json) :
  items_text pr (x :: rest)
  = pr x ++ match rest with
            | [] => "]"
            | _ :: _ => String "," (items_text pr rest)
            end.
Proof. reflexivity. Qed.

Lemma members_text_cons (pr : json -> string) (kx : string * json)
    (rest : list (string * json)) :
  members_text pr (kx :: rest)
  = quote (fst kx) ++ String ":" (pr (snd kx) ++
      match rest with
      | [] => "}"
      | _ :: _ => String "," (members_text pr rest)
      end).
Proof. reflexivity. Qed.

Lemma parse_items_step (fuel : nat) (s : string) :
  parse_items (S fuel) s
  = match parse_value fuel s with
    | Some (x, String c after) =>
        if Ascii.eqb c "," then
          match parse_items fuel after with
          | Some (l, after') => Some (x :: l, after')
          | None => None
          end
        else if Ascii.eqb c "]" then Some ([x], after)
        else None
    | _ => None
    end.
Proof. reflexivity. Qed.

Lemma parse_members_step (fuel : nat) (k : string) (s : string) :
  parse_members (S fuel) (quote k ++ String ":" s)
  = match parse_value fuel s with
    | Some (x, String c after) =>
        if Ascii.eqb c "," then
          match parse_members fuel after with
          | Some (l, after') => Some ((k, x) :: l, after')
          | None => None
          end
        else if Ascii.eqb c "}" then Some ([(k, x)], after)
        else None
    | _ => None
    end.
Proof.
  rewrite quote_append. cbn [parse_members]. rewrite Ascii.eqb_refl, unescape_escape.
  reflexivity.
Qed.

Lemma parse_items_text (items : list json) :
  Forall parses items -> items <> [] ->
  forall fuel rest, (items_weight weight items <= fuel)%nat ->
    parse_items fuel (items_text print items ++ rest) = Some (items, rest).
Proof.
  induction 1 as [|x items Hx Hitems IH]; [contradiction|].
  intros _ fuel rest Hfuel. cbn [items_weight] in Hfuel.
  destruct fuel as [|fuel]; [lia|].
  rewrite items_text_cons, append_assoc, parse_items_step.
  destruct items as [|y items].
  - rewrite Hx; [reflexivity | lia | reflexivity].
  - rewrite Hx; [|lia|reflexivity]. cbn [String.append].
    change (Ascii.eqb "," ",") with true. cbn match.
    rewrite IH; [reflexivity | discriminate | lia].
Qed.

Lemma parse_members_text (fields : list (string * json)) :
  Forall (fun kx => parses (snd kx)) fields -> fields <> [] ->
  forall fuel rest, (members_weight weight fields <= fuel)%nat ->
    parse_members fuel (members_text print fields ++ rest) = Some (fields, rest).
Proof.
  induction 1 as [|[k x] fields Hx Hfields IH]; [contradiction|].
  intros _ fuel rest Hfuel. cbn [members_weight snd] in Hfuel.
  destruct fuel as [|fuel]; [lia|].
  rewrite members_text_cons. cbn [fst snd].
  rewrite append_assoc. cbn [String.append]. rewrite append_assoc, parse_members_step.
  cbn [snd] in Hx.
  destruct fields as [|ky fields].
  - rewrite Hx; [reflexivity | lia | reflexivity].
  - rewrite Hx; [|lia|reflexivity]. cbn [String.append].
    change (Ascii.eqb "," ",") with true. cbn match.
    rewrite IH; [reflexivity | discriminate | lia].
Qed.

Lemma parse_print (v : json) : parses v.
Proof.
  induction v as [| b | n | s | items IH | fields IH] using json_nested_ind;
    intros fuel rest Hfuel Hrest; (destruct fuel as [|fuel]; [simpl in Hfuel; lia|]).
  - reflexivity.
  - destruct b; reflexivity.
  - cbn [print]. destruct (print_Z_head n rest) as (c & t & E & Hc).
    cbn [parse_value]. rewrite E, Hc, <- E. apply parse_number_print. exact Hrest.
  - cbn [print]. rewrite quote_append. cbn [parse_value].
    rewrite unescape_escape. reflexivity.
  - cbn [print weight] in *. destruct items as [|x items]; [reflexivity|].
    cbn [String.append parse_value].
    destruct (print_head x
                (match items with [] => "]" | _ :: _ => String "," (items_text print items) end
                 ++ rest)) as (c & t & E & Hc & _).
    rewrite items_text_cons, append_assoc, E.
    change (is_num_char "[") with false. cbn match.
    change (Ascii.eqb "[" dquote) with false. cbn match.
    rewrite Hc, <- E, <- append_assoc, <- items_text_cons.
    rewrite (parse_items_text _ IH); [reflexivity | discriminate | lia].
  - cbn [print weight] in *. destruct fields as [|kx fields]; [reflexivity|].
    cbn [String.append parse_value].
    rewrite members_text_cons, quote_append.
    change (is_num_char "{") with false. cbn match.
    change (Ascii.eqb "{" dquote) with false. cbn match.
    change (Ascii.eqb dquote "}") with false. cbn match.
    rewrite <- quote_append, <- members_text_cons.
    rewrite (parse_members_text _ IH); [reflexivity | discriminate | lia].
Qed.

Lemma items_weight_le (items : list json) :
  Forall (fun x => (weight x <= String.length (print x))%nat) items ->
  (items_weight weight items <= String.length (items_text print items))%nat.
Proof.
  induction 1 as [|x items Hx _ IH]; [cbn; lia|].
  rewrite items_text_cons, length_append. cbn [items_weight].
  destruct items as [|y items]; [cbn in *; lia|].
  cbn [String.length]. lia.
Qed.

Lemma members_weight_le (fields : list (string * json)) :
  Forall (fun kx => (weight (snd kx) <= String.length (print (snd kx)))%nat) fields ->
  (members_weight weight fields <= String.length (members_text print fields))%nat.
Proof.
  induction 1 as [|kx fields Hx _ IH]; [cbn; lia|].
  rewrite members_text_cons, length_append. cbn [members_weight String.length].
  rewrite length_append.
  destruct fields as [|ky fields]; [cbn in *; lia|].
  cbn [String.length]. lia.
Qed.

Lemma weight_le_length (v : json) : (weight v <= String.length (print v))%nat.
Proof.
  induction v as [| b | n | s | items IH | fields IH] using json_nested_ind.
  - cbn. lia.
  - destruct b; cbn; lia.
  - cbn [weight print]. pose proof (print_Z_nonempty n) as N.
    destruct (print_Z n); [contradiction | cbn; lia].
  - cbn. lia.
  - cbn [weight print String.length]. pose proof (items_weight_le items IH). lia.
  - cbn [weight print String.length]. pose proof (members_weight_le fields IH). lia.
Qed.

Lemma ref_JSON_roundtrip (v : json) : ref_JSON_parse (print v) = Some v.
Proof.
  unfold ref_JSON_parse.
  pose proof (parse_print v (S (String.length (print v))) "") as H.
  rewrite append_empty in H. rewrite H; [reflexivity | | reflexivity].
  pose proof (weight_le_length v). lia.
Qed.

Lemma print_nonempty (v : json) : print v <> "".
Proof.
  pose proof (weight_le_length v) as H. intros E. rewrite E in H.
  destruct v; cbn in H; lia.
Qed.

End ReferenceJson.

Section ReferenceLaws.

Lemma ref_HS256_nonempty (key msg : string) : ref_HS256 key msg <> "".
Proof. unfold ref_HS256. intros E. apply ref_base64url_nonempty in E. discriminate E. Qed.

(** The reference host satisfies the laws of the token round trip. *)
Lemma reference_laws : RuntimeLaws reference.
Proof.
  constructor.
  - exact ref_base64_roundtrip.
  - exact ref_JSON_roundtrip.
  - exact ref_base64url_alphabet.
  - exact ref_base64url_nonempty.
  - exact print_nonempty.
  - intros key msg. apply ref_base64url_alphabet.
  - exact ref_HS256_nonempty.
Qed.

End ReferenceLaws.

Section ReferenceBrowser.

(** Induction over a string four characters at a time. *)
Lemma string_by_fours (P : string -> Prop) :
  P "" ->
  (forall a, P (String a "")) ->
  (forall a b, P (String a (String b ""))) ->
  (forall a b c, P (String a (String b (String c "")))) ->
  (forall a b c d s, P s -> P (String a (String b (String c (String d s))))) ->
  forall s, P s.
Proof.
  intros H0 H1 H2 H3 H4 s.
  cut (P s /\ (forall a, P (String a s)) /\ (forall a b, P (String a (String b s)))
       /\ (forall a b c, P (String a (String b (String c s))))).
  { intros [H _]. exact H. }
  induction s as [|c s (IH0 & IH1 & IH2 & IH3)].
  - split; [exact H0|]. split; [exact H1|]. split; [exact H2 | exact H3].
  - split; [apply IH1|]. split; [intros a; apply IH2|].
    split; [intros a b; apply IH3|]. intros a b d. apply H4. exact IH0.
Qed.

Lemma replaceAll_sextet (c d : ascii) (a : ascii) :
  char_sextet c = char_sextet d ->
  char_sextet (if Ascii.eqb a c then d else a) = char_sextet a.
Proof.
  intros E. destruct (Ascii.eqb_spec a c) as [->|]; [symmetry; exact E | reflexivity].
Qed.

Lemma keep_replaceAll (c d : ascii) (s : string) :
  char_sextet c = char_sextet d ->
  keep (fun x => bool_decide (is_Some (char_sextet x))) (replaceAll c d s)
  = replaceAll c d (keep (fun x => bool_decide (is_Some (char_sextet x))) s).
Proof.
  intros E. induction s as [|a s IH]; [reflexivity|].
  cbn [replaceAll keep]. rewrite (replaceAll_sextet c d a E).
  destruct (bool_decide (is_Some (char_sextet a))); cbn [replaceAll]; rewrite IH; reflexivity.
Qed.

Lemma sextets_to_bytes_replaceAll (c d : ascii) (s : string) :
  char_sextet c = char_sextet d ->
  sextets_to_bytes (replaceAll c d s) = sextets_to_bytes s.
Proof.
  intros E.
  assert (Hz : forall a, sextet_or_zero (if Ascii.eqb a c then d else a) = sextet_or_zero a).
  { intros a. unfold sextet_or_zero. rewrite (replaceAll_sextet c d a E). reflexivity. }
  induction s as [| a | a b | a b x | a b x y s IH] using string_by_fours;
    cbn [replaceAll sextets_to_bytes]; rewrite ?Hz, ?IH; reflexivity.
Qed.

Lemma ref_base64_either_alphabet (s : string) :
  ref_base64_to_utf8 (replaceAll "_" "/" (replaceAll "-" "+" s)) = ref_base64_to_utf8 s.
Proof.
  unfold ref_base64_to_utf8.
  rewrite !keep_replaceAll, !sextets_to_bytes_replaceAll by reflexivity. reflexivity.
Qed.

Lemma token_char_unreserved (c : ascii) :
  b64url_char c || Ascii.eqb c "." = true -> unreserved c = true.
Proof.
  destruct c as [[] [] [] [] [] [] [] []]; vm_compute; intros H;
    first [reflexivity | discriminate H].
Qed.

Lemma ref_encodeURIComponent_token (s : string) :
  compact_text s = true -> ref_encodeURIComponent s = s.
Proof.
  induction s as [|c s IH]; [reflexivity|]. cbn [compact_text ref_encodeURIComponent].
  intros H. apply andb_true_iff in H as [Hc Hs].
  rewrite (token_char_unreserved c Hc), (IH Hs). reflexivity.
Qed.

(** The reference host carries a token unchanged. *)
Lemma reference_browser_laws : BrowserLaws reference.
Proof.
  constructor.
  - exact ref_base64_either_alphabet.
  - exact ref_encodeURIComponent_token.
Qed.

End ReferenceBrowser.

(* ===================================================================== *)
(** * The properties on the reference host *)
(* ===================================================================== *)

Section Examples.

Import Example.
Local Existing Instance reference.

(** C6 on the reference host: a token that expires exactly at the clock's
    second is flagged, and so is one with a broken payload. *)
Lemma isExpiredJwt_advisory_witness :
  isExpiredJwt 1700000600000 (Some token_live) = true
  /\ isExpiredJwt 1700000599999 (Some token_live) = false
  /\ isExpiredJwt now (Some "a.b") = true
  /\ isExpiredJwt now (Some "x.e3.y") = true
  /\ isExpiredJwt now (Some token_stale)
     = isExpiredJwt now (Some ("other" ++ "." ++ "eyJleHAiOjE2MDAwMDAwMDB9" ++ "." ++ "forged")).
Proof.
  pose proof (isExpiredJwt_advisory (R := reference) 1700000600000)
    as (_ & _ & _ & _ & Hexp & _).
  pose proof (isExpiredJwt_advisory (R := reference) 1700000599999)
    as (_ & _ & _ & _ & Hlive & _).
  pose proof (isExpiredJwt_advisory (R := reference) now)
    as (_ & _ & Hparts & Hparse & _ & Hsig).
  split; [|split; [|split; [|split]]].
  - apply (Hexp token_live (JObj [("exp", JNum 1700000600)]) 1700000600);
      [discriminate | reflexivity | reflexivity | reflexivity | vm_compute; discriminate].
  - apply (Hlive token_live (JObj [("exp", JNum 1700000600)]) 1700000600);
      [discriminate | reflexivity | reflexivity | reflexivity | reflexivity].
  - apply Hparts. vm_compute. discriminate.
  - apply Hparse. reflexivity.
  - apply (Hsig "x" "eyJleHAiOjE2MDAwMDAwMDB9" "y" "other" "forged"); reflexivity.
Defined.

(** C9 on the reference host: the token with the payload [{}] opens
    [/dashboard/settings] at any clock reading. *)
Lemma no_exp_never_expires_witness :
  isExpiredJwt now (Some token_no_exp) = false
  /\ middleware now
       (visit "/dashboard/settings" "" [] {[ "accessToken" := token_no_exp ]})
     = {| action := Next; deleted := [] |}.
Proof.
  destruct (no_exp_never_expires (R := reference) now token_no_exp (JObj [])) as [Hflag Hgate].
  - discriminate.
  - reflexivity.
  - reflexivity.
  - intros e. discriminate.
  - split; [exact Hflag|]. apply Hgate; reflexivity.
Defined.

(** C10 on the reference host. *)
Lemma path_classes_witness :
  isProtected "/profile/edit" = true
  /\ isAuthPage "/login" = true
  /\ isAuthPage "/login/reset" = false
  /\ middleware now (visit "/login/reset" "?next=%2Fdashboard" [("next", "/dashboard")]
                       {[ "accessToken" := token_stale ]})
     = {| action := Next; deleted := [] |}.
Proof.
  pose proof (path_classes (R := reference) now) as (Hprot & Hauth & _ & Hnested & Hpublic).
  split; [|split; [|split]].
  - apply Hprot. right. exists "/edit". reflexivity.
  - apply Hauth. left. reflexivity.
  - apply (Hnested "/"%char "reset").
  - apply Hpublic; reflexivity.
Defined.

(** C4 on the reference host: [/login?next=%2Fdashboard] with a live
    access cookie. *)
Lemma auth_page_with_next_clears_witness :
  isExpiredJwt now (Some token_live) = false
  /\ middleware now (visit "/login" "?next=%2Fdashboard" [("next", "/dashboard")]
                       {[ "accessToken" := token_live ]})
     = {| action := Next; deleted := ["accessToken"; "refreshToken"] |}.
Proof.
  split; [reflexivity|].
  destruct (auth_page_with_next_clears (R := reference) now
              (visit "/login" "?next=%2Fdashboard" [("next", "/dashboard")]
                 {[ "accessToken" := token_live ]}))
    as (Hact & _ & Hdel & _); [reflexivity | reflexivity |].
  specialize (Hdel token_live eq_refl ltac:(discriminate)).
  destruct (middleware now _) as [act del]. simpl in Hact, Hdel. subst. reflexivity.
Defined.

(** C5 on the reference host: [/dashboard] without a cookie. *)
Lemma protected_without_session_redirects_witness :
  action (middleware now (visit "/dashboard" "" [] ∅))
  = Redirect "/login" [("next", "/dashboard")]
  /\ deleted (middleware now (visit "/dashboard" "" [] ∅)) = ["refreshToken"].
Proof.
  destruct (protected_without_session_redirects (R := reference) now
              (visit "/dashboard" "" [] ∅))
    as ((query & Hact & Hnext) & Hdel & _); [reflexivity | left; reflexivity |].
  split; [reflexivity | exact Hdel].
Defined.




(** C2 on the reference host: an unknown identifier and a wrong password. *)
Lemma authenticate_compares_once_witness :
  authenticate cfg db now "nobody" "secret123"
  = ([DbFindFirst "nobody"; BcryptCompare "secret123" DUMMY_HASH], Ok no_user)
  /\ authenticate cfg db now "jdoe" "wrong-password"
     = ([DbFindFirst "jdoe"; BcryptCompare "wrong-password" (ref_hash "secret123")],
        Ok no_user).
Proof.
  pose proof (authenticate_compares_once (R := reference) cfg db now "nobody" "secret123")
    as (_ & Hnone & _).
  pose proof (authenticate_compares_once (R := reference) cfg db now "jdoe" "wrong-password")
    as (_ & _ & Hbad).
  specialize (Hnone eq_refl). specialize (Hbad jane eq_refl eq_refl).
  split.
  - destruct (authenticate cfg db now "nobody" "secret123") as [t r] eqn:E.
    simpl in Hnone. subst r. vm_compute in E. injection E as <-. reflexivity.
  - destruct (authenticate cfg db now "jdoe" "wrong-password") as [t r] eqn:E.
    simpl in Hbad. subst r. vm_compute in E. injection E as <-. reflexivity.
Defined.

(** C3 on the reference host: the three causes, one reply. *)
Lemma login_failures_are_uniform_witness :
  snd (login_handler cfg db now
         {| validationError := Some "body/password must NOT have fewer than 6 characters";
            body := {| identifier := "jdoe"; password := "x" |} |})
  = Ok {| code := 401; sent := Failure "Invalid credentials" |}
  /\ snd (login_handler cfg db now
            {| validationError := None;
               body := {| identifier := "nobody"; password := "secret123" |} |})
     = Ok {| code := 401; sent := Failure "Invalid credentials" |}
  /\ snd (login_handler cfg db now
            {| validationError := None;
               body := {| identifier := "jdoe"; password := "wrong-password" |} |})
     = Ok {| code := 401; sent := Failure "Invalid credentials" |}.
Proof.
  split; [|split]; apply (login_failures_are_uniform (R := reference)).
  - left. discriminate.
  - right. left. reflexivity.
  - right. right. exists jane. split; reflexivity.
Defined.

(** C1 on the reference host: the access token issued for [jdoe] at
    [now], verified one second before it expires. *)
Lemma issued_access_token_verifies_witness :
  exists tok rtok claims,
    snd (authenticate cfg db now "jdoe" "secret123")
    = Ok {| user := Some (publicUser jane); accessToken := Some tok;
            refreshToken := Some rtok |}
    /\ verifyJwt 1700000599000 tok (JWT_ACCESS_SECRET cfg) = Ok claims
    /\ prop "sub" claims = Some (JStr "7f3c").
Proof.
  destruct (issued_access_token_verifies (R := reference) (L := reference_laws) cfg db now
              1700000599000 "jdoe" "secret123" jane 600000 604800000)
    as (tok & rtok & claims & Hauth & Hverify & _ & Hsub & _);
    [reflexivity | reflexivity | reflexivity | reflexivity | reflexivity |].
  exists tok, rtok, claims. split; [exact Hauth|]. split; [exact Hverify | exact Hsub].
Defined.

(** The run of [authenticate] for [jdoe] on the reference host, and the
    claims of the access token it issues. *)
Lemma jdoe_signs_in :
  exists tok rtok,
    snd (authenticate cfg db now "jdoe" "secret123")
    = Ok {| user := Some (publicUser jane); accessToken := Some tok;
            refreshToken := Some rtok |}
    /\ verifyJwt now tok (JWT_ACCESS_SECRET cfg)
       = Ok (JObj [("sub", JStr "7f3c"); ("username", JStr "jdoe");
                   ("iat", JNum 1700000000); ("exp", JNum 1700000600)]).
Proof.
  eexists _, _. split; [vm_compute; reflexivity|]. vm_compute. reflexivity.
Qed.

(** The access token issued for [jdoe] verifies and its subject is the
    identity, but its claims are [sub], [username], [iat] and [exp]: none
    says "access", whether the class is looked for under [kind] (the
    specification's name) or under [type] (the name the refresh token
    uses). *)
Lemma issued_access_token_has_no_kind :
  ~ roundtrip_as_specified "kind" cfg db now "jdoe" "secret123"
  /\ ~ roundtrip_as_specified "type" cfg db now "jdoe" "secret123".
Proof.
  destruct jdoe_signs_in as (tok & rtok & Hauth & Hverify).
  split; intros Hspec;
    destruct (Hspec _ _ tok Hauth eq_refl eq_refl) as (claims & Hv & _ & Hkind);
    rewrite Hverify in Hv; injection Hv as <-; discriminate Hkind.
Qed.


(** A payload segment with a [-] in it: the gate's decoder translates the
    URL alphabet and reads the [exp], [login] hands the segment to [atob]
    as it is, [atob] throws, and the cookie gets the hour. *)
Lemma url_alphabet_payload_gets_an_hour :
  token_exp token_url_alphabet = Some 1700000600
  /\ isExpiredJwt now (Some token_url_alphabet) = false
  /\ login_payload token_url_alphabet = None
  /\ login_maxAge now token_url_alphabet = 3600.
Proof.
  split; [vm_compute; reflexivity|]. split; [vm_compute; reflexivity|].
  split; [vm_compute; reflexivity|]. vm_compute. reflexivity.
Qed.

(** X1 on the reference host: the redirect from [/dashboard] with a stale
    token deletes the token cookies and keeps the [theme] cookie. *)
Lemma middleware_keeps_other_cookies_witness :
  apply_response
    (middleware now (visit "/dashboard" "" []
                       (<["theme" := "dark"]> {[ "accessToken" := token_stale ]})))
    (<["theme" := "dark"]> {[ "accessToken" := token_stale ]}) !! "theme"
  = Some "dark".
Proof.
  destruct (middleware_keeps_other_cookies (R := reference) now
              (visit "/dashboard" "" []
                 (<["theme" := "dark"]> {[ "accessToken" := token_stale ]})) "theme")
    as [_ Hkept]; [discriminate | discriminate |].
  exact (eq_trans Hkept eq_refl).
Defined.


(** X3 on the reference host: [/dashboard?tab=1] with a stale token is
    redirected, and the request that follows renders the login page. *)
Lemma redirect_lands_witness :
  exists req',
    follow (middleware now (visit "/dashboard" "?tab=1" [("tab", "1")]
                              {[ "accessToken" := token_stale ]}))
      "?tab=1&next=%2Fdashboard%3Ftab%3D1"
      (visit "/dashboard" "?tab=1" [("tab", "1")] {[ "accessToken" := token_stale ]})
    = Some req'
    /\ pathname (nextUrl req') = "/login"
    /\ searchParams (nextUrl req') = [("tab", "1"); ("next", "/dashboard?tab=1")]
    /\ action (middleware now req') = Next.
Proof.
  pose proof (redirect_lands (R := reference) now
                (visit "/dashboard" "?tab=1" [("tab", "1")]
                   {[ "accessToken" := token_stale ]})
                _ "?tab=1&next=%2Fdashboard%3Ftab%3D1" eq_refl) as [Hnext _].
  eexists. split; [reflexivity|]. split; [reflexivity|]. split; [reflexivity|].
  exact Hnext.
Defined.

(** X4 on the reference host: the live token, flagged at the second of its
    [exp], is flagged three years later. *)
Lemma isExpiredJwt_monotone_witness :
  isExpiredJwt 1700000600000 (Some token_live) = true
  /\ isExpiredJwt 1800000000000 (Some token_live) = true.
Proof.
  split; [reflexivity|].
  destruct (isExpiredJwt_monotone (R := reference) 1700000600000 1800000000000
              (visit "/dashboard" "" [] ∅)) as [Hflag _]; [lia|].
  apply Hflag. reflexivity.
Defined.

(** X5 on the reference host: a live token opens [/profile/edit]. *)
Lemma unflagged_session_routing_witness :
  middleware now (visit "/profile/edit" "" [] {[ "accessToken" := token_live ]})
  = {| action := Next; deleted := [] |}
  /\ middleware now (visit "/login" "" [] {[ "accessToken" := token_live ]})
     = {| action := Redirect "/dashboard" []; deleted := [] |}.
Proof.
  destruct (unflagged_session_routing (R := reference) now
              (visit "/profile/edit" "" [] {[ "accessToken" := token_live ]}) token_live)
    as (Hprot & _); [reflexivity | discriminate | reflexivity |].
  destruct (unflagged_session_routing (R := reference) now
              (visit "/login" "" [] {[ "accessToken" := token_live ]}) token_live)
    as (_ & Hauth & _); [reflexivity | discriminate | reflexivity |].
  split; [apply Hprot | apply Hauth]; reflexivity.
Defined.

(** X6 on the reference host: [/login] with a stale token and no [next]
    renders and leaves the stale cookie where it is. *)
Lemma auth_page_without_next_witness :
  middleware now (visit "/login" "" [] {[ "accessToken" := token_stale ]})
  = {| action := Next; deleted := [] |}
  /\ apply_response
       (middleware now (visit "/login" "" [] {[ "accessToken" := token_stale ]}))
       {[ "accessToken" := token_stale ]} !! "accessToken"
     = Some token_stale.
Proof.
  destruct (auth_page_without_next (R := reference) now
              (visit "/login" "" [] {[ "accessToken" := token_stale ]}))
    as [Hres Hjar]; [reflexivity | reflexivity | right; reflexivity |].
  split; [exact Hres|].
  change (apply_response
            (middleware now (visit "/login" "" [] {[ "accessToken" := token_stale ]}))
            (cookies (visit "/login" "" [] {[ "accessToken" := token_stale ]}))
          !! "accessToken" = Some token_stale).
  rewrite Hjar. reflexivity.
Defined.

(** X7 on the reference host: a request that has a [next] of its own. *)
Lemma login_redirect_keeps_query_witness :
  action (middleware now
            (visit "/dashboard" "?tab=1&next=/x" [("tab", "1"); ("next", "/x")] ∅))
  = Redirect "/login" [("tab", "1"); ("next", "/dashboard?tab=1&next=/x")]
  /\ named "next" [("tab", "1"); ("next", "/dashboard?tab=1&next=/x")]
     = [("next", "/dashboard?tab=1&next=/x")].
Proof.
  split; [reflexivity|].
  destruct (login_redirect_keeps_query (R := reference) now
              (visit "/dashboard" "?tab=1&next=/x" [("tab", "1"); ("next", "/x")] ∅)
              [("tab", "1"); ("next", "/dashboard?tab=1&next=/x")])
    as [Hnext _]; [reflexivity|].
  exact Hnext.
Defined.

(** X9 on the reference host: a login that meets a 401 in a browser that
    holds both tokens. *)
Lemma failed_login_stores_nothing_witness :
  fst (login now Http401 browser) = Throw "AuthError"
  /\ getToken (snd (login now Http401 browser)) = None.
Proof.
  split; [reflexivity|].
  destruct (failed_login_stores_nothing (R := reference) now Http401 browser "AuthError")
    as [(_ & _ & _ & Hget) | (Hne & _)]; [reflexivity | exact Hget|].
  exfalso. apply Hne. reflexivity.
Defined.

(** X10 on the reference host: a login in a fresh browser, then a logout. *)
Lemma logout_undoes_login_witness :
  logout (snd (login now
                 (HttpBody (Some {| success := true; data := Some reply_data |}))
                 fresh_browser))
  = logout fresh_browser.
Proof.
  apply (logout_undoes_login (R := reference)). intros _. discriminate.
Defined.

(** X11 on the reference host: the stores of a fresh browser after the
    login of [jdoe]; the access cookie holds the token as it is and lives
    the 600 seconds the token has left. *)
Lemma login_session_state_witness :
  snd (login now (HttpBody (Some {| success := true; data := Some reply_data |}))
         fresh_browser)
  = {| window :=
         Some (<["refreshToken" := refresh_jdoe]> (<["accessToken" := access_jdoe]> ∅));
       document :=
         Some (<["refreshToken" := {| value := refresh_jdoe; maxAge := 2592000 |}]>
                 (<["accessToken" := {| value := access_jdoe; maxAge := 600 |}]> ∅)) |}
  /\ (<["refreshToken" := {| value := refresh_jdoe; maxAge := 2592000 |}]>
        (<["accessToken" := {| value := access_jdoe; maxAge := 600 |}]>
           (∅ : gmap string Cookie))) !! "accessToken"
     = Some {| value := access_jdoe; maxAge := 600 |}.
Proof.
  assert (Hstate :
    snd (login now (HttpBody (Some {| success := true; data := Some reply_data |}))
           {| window := Some ∅; document := Some ∅ |})
    = {| window :=
           Some (<["refreshToken" := refresh_jdoe]> (<["accessToken" := access_jdoe]> ∅));
         document :=
           Some (<["refreshToken" := {| value := refresh_jdoe; maxAge := 2592000 |}]>
                   (<["accessToken" := {| value := access_jdoe; maxAge := 600 |}]> ∅)) |}).
  { vm_compute. reflexivity. }
  split; [exact Hstate|].
  destruct (login_session_state (R := reference) now reply_data ∅ _ ∅ _ Hstate)
    as (_ & _ & _ & Haccess & _).
  refine (eq_trans Haccess _). vm_compute. reflexivity.
Defined.

(** X15 on the reference host: two observations in one window, and the
    first one's function called. *)
Lemma unsubscribe_stops_current_timer_witness :
  observeToken browser no_watchers = (Some 1%positive, snd (observeToken browser no_watchers))
  /\ (1%positive ∈ intervals
        (unsubscribe 1
           (snd (observeToken browser (snd (observeToken browser no_watchers))))))
  /\ (2%positive ∉ intervals
        (unsubscribe 1
           (snd (observeToken browser (snd (observeToken browser no_watchers)))))).
Proof.
  split; [reflexivity|].
  destruct (unsubscribe_stops_current_timer browser browser browser no_watchers
              (snd (observeToken browser no_watchers))
              (snd (observeToken browser (snd (observeToken browser no_watchers))))
              1 2 eq_refl) as [_ Hboth].
  destruct (Hboth eq_refl) as (_ & Hfirst & Hsecond & _).
  split; [exact Hfirst | exact Hsecond].
Defined.

(** The login of [jdoe] on the reference host. *)
Lemma jdoe_session : snd (authenticate cfg db now "jdoe" "secret123") = Ok session.
Proof. vm_compute. reflexivity. Qed.



(** X18 on the reference host: who signed in as [jdoe]. *)
Lemma authenticate_sound_witness :
  exists row,
    In row db /\ publicUser jane = publicUser row
    /\ bcrypt_compare "secret123" (u_password row) = true.
Proof.
  destruct (authenticate_sound (R := reference) cfg db now "jdoe" "secret123" session
              (publicUser jane) jdoe_session eq_refl)
    as (row & d & d' & Hin & Hu & Hok & _).
  exists row. split; [exact Hin|]. split; [exact Hu | exact Hok].
Defined.

(** X19 on the reference host: with the row [nope] first in the table,
    the identifier [jdoe] and the password of [nope] sign in as [nope]. *)
Lemma nope_username_matches_every_identifier_witness :
  exists tok rtok,
    snd (authenticate cfg [nope; jane] now "jdoe" "hunter22")
    = Ok {| user := Some (publicUser nope); accessToken := Some tok;
            refreshToken := Some rtok |}.
Proof.
  destruct (nope_username_matches_every_identifier (R := reference) cfg nope [jane] now
              "jdoe" "hunter22" 600000 604800000 eq_refl eq_refl eq_refl eq_refl eq_refl)
    as (tok & rtok & Hauth & _).
  exists tok, rtok. exact Hauth.
Defined.

(** X20 on the reference host: the refresh token of [jdoe], read back a
    day later. *)
Lemma issued_refresh_token_verifies_witness :
  exists row d',
    In row db /\ user session = Some (publicUser row)
    /\ ms (JWT_REFRESH_TTL cfg) = Some d'
    /\ verifyJwt 1700086400000 refresh_jdoe (JWT_REFRESH_SECRET cfg)
       = if 1700000000000 / 1000 + d' / 1000 <=? 1700086400000 / 1000
         then Throw "jwt expired"
         else Ok (JObj [("sub", JStr (u_id row)); ("type", JStr "refresh");
                        ("iat", JNum (1700000000000 / 1000));
                        ("exp", JNum (1700000000000 / 1000 + d' / 1000))]).
Proof.
  exact (issued_refresh_token_verifies (R := reference) (L := reference_laws) cfg db now
           1700086400000 "jdoe" "secret123" session refresh_jdoe jdoe_session eq_refl).
Defined.

(** X21 on the reference host: the endpoint answers [jdoe] with 200. *)
Lemma login_handler_replies_witness :
  exists reply,
    snd (login_handler cfg db now
           {| validationError := None;
              body := {| identifier := "jdoe"; password := "secret123" |} |}) = Ok reply
    /\ code reply = 200.
Proof.
  destruct (login_handler_replies (R := reference) cfg db now
              {| validationError := None;
                 body := {| identifier := "jdoe"; password := "secret123" |} |}
              600000 604800000 eq_refl eq_refl)
    as (reply & Hreply & _ & Hcode & _).
  exists reply. split; [exact Hreply|].
  apply Hcode. split; [reflexivity|]. exists jane. split; reflexivity.
Defined.

(** X23 on the reference host: the guard and the access token of [jdoe],
    one second before and at the second of its [exp]. *)
Lemma authGuard_admits_issued_token_witness :
  authGuard cfg 1700000599000 (Some ("Bearer " ++ access_jdoe)) = Authorized (JStr "7f3c")
  /\ authGuard cfg 1700000600000 (Some ("Bearer " ++ access_jdoe))
     = Rejected 401 "Unauthorized".
Proof.
  destruct (authGuard_admits_issued_token (R := reference) (L := reference_laws) cfg db now
              1700000599000 "jdoe" "secret123" session (publicUser jane) access_jdoe
              jdoe_session eq_refl eq_refl) as (d & Hd & Hlive); [discriminate|].
  destruct (authGuard_admits_issued_token (R := reference) (L := reference_laws) cfg db now
              1700000600000 "jdoe" "secret123" session (publicUser jane) access_jdoe
              jdoe_session eq_refl eq_refl) as (d2 & Hd2 & Hpast); [discriminate|].
  vm_compute in Hd, Hd2. injection Hd as <-. injection Hd2 as <-.
  split; [exact Hlive | exact Hpast].
Defined.

(** X24 on the reference host: the refresh token of [jdoe] as a bearer
    token. *)
Lemma refresh_token_as_bearer_witness :
  authGuard cfg now (Some ("Bearer " ++ refresh_jdoe)) = Rejected 401 "Unauthorized".
Proof.
  destruct (refresh_token_as_bearer (R := reference) (L := reference_laws) cfg db now now
              "jdoe" "secret123" session (publicUser jane) refresh_jdoe
              jdoe_session eq_refl eq_refl) as (row & d' & Hu & Hd' & Hreject & _);
    [discriminate|].
  apply Hreject. vm_compute in Hd'. injection Hd' as <-.
  unfold refresh_payload. injection Hu as Hid _ _ _. rewrite <- Hid.
  vm_compute. discriminate.
Defined.

(** X25 on the reference host: the gate's check and [verifyJwt] on the
    access token of [jdoe]. *)
Lemma gate_agrees_with_verifyJwt_witness :
  isExpiredJwt 1700000599000 (Some access_jdoe) = false
  /\ isExpiredJwt 1700000600000 (Some access_jdoe) = true
  /\ verifyJwt 1700000600000 access_jdoe (JWT_ACCESS_SECRET cfg) = Throw "jwt expired".
Proof.
  destruct (gate_agrees_with_verifyJwt (R := reference) (L := reference_laws)
              (B := reference_browser_laws) cfg db now 1700000600000 "jdoe" "secret123"
              session access_jdoe jdoe_session eq_refl) as (d & _ & _ & _ & Hagree).
  split; [vm_compute; reflexivity|].
  assert (Hflag : isExpiredJwt 1700000600000 (Some access_jdoe) = true)
    by (vm_compute; reflexivity).
  split; [exact Hflag | apply Hagree; exact Hflag].
Defined.

(** X26 on the reference host: [jdoe] signs in, the client stores the
    reply in a fresh browser, and the cookie opens [/dashboard] until the
    token expires. *)
Lemma issued_session_passes_gate_witness :
  middleware 1700000599000 (visit "/dashboard" "" [] {[ "accessToken" := access_jdoe ]})
  = {| action := Next; deleted := [] |}
  /\ middleware 1700000600000 (visit "/dashboard" "" [] {[ "accessToken" := access_jdoe ]})
     = {| action := Redirect "/login" [("next", "/dashboard")];
          deleted := ["accessToken"; "refreshToken"] |}.
Proof.
  assert (Hjourney : forall now',
    exists d,
      ms (JWT_ACCESS_TTL cfg) = Some d
      /\ getToken (snd (login now
                          (HttpBody (Some {| success := true; data := Some reply_data |}))
                          fresh_browser)) = Some access_jdoe
      /\ access_jdoe = access_jdoe
      /\ (seconds now' < seconds now + d / 1000 ->
          middleware now' (visit "/dashboard" "" [] {[ "accessToken" := access_jdoe ]})
          = {| action := Next; deleted := [] |})
      /\ (seconds now + d / 1000 <= seconds now' ->
          middleware now' (visit "/dashboard" "" [] {[ "accessToken" := access_jdoe ]})
          = {| action := Redirect "/login" [("next", "/dashboard")];
               deleted := ["accessToken"; "refreshToken"] |})).
  { intros now'.
    apply (issued_session_passes_gate (R := reference) (L := reference_laws)
             (B := reference_browser_laws) cfg db now now now' "jdoe" "secret123" session
             access_jdoe refresh_jdoe (d_user reply_data) ∅ ∅
             (snd (login now
                     (HttpBody (Some {| success := true; data := Some reply_data |}))
                     fresh_browser))
             {| value := access_jdoe; maxAge := 600 |}
             (<["refreshToken" := {| value := refresh_jdoe; maxAge := 2592000 |}]>
                (<["accessToken" := {| value := access_jdoe; maxAge := 600 |}]> ∅))
             (visit "/dashboard" "" [] {[ "accessToken" := access_jdoe ]})).
    - exact jdoe_session.
    - reflexivity.
    - reflexivity.
    - reflexivity.
    - vm_compute. reflexivity.
    - vm_compute. reflexivity.
    - reflexivity.
    - reflexivity. }
  destruct (Hjourney 1700000599000) as (d & Hd & _ & _ & Hlive & _).
  destruct (Hjourney 1700000600000) as (d2 & Hd2 & _ & _ & _ & Hpast).
  vm_compute in Hd, Hd2. injection Hd as <-. injection Hd2 as <-.
  split; [apply Hlive; reflexivity | apply Hpast; vm_compute; discriminate].
Defined.

(** X27 on the reference host: [jane] by her email in capitals. *)
Lemma lookup_is_by_username_or_email_witness :
  snd (authenticate cfg db now "Jane@Example.COM" "secret123")
  = snd (authenticate cfg db now "jane@example.com" "secret123")
  /\ find (by_username_or_email "Jane@Example.COM") db = Some jane.
Proof.
  destruct (lookup_is_by_username_or_email (R := reference) cfg db now
              "Jane@Example.COM" "jane@example.com" "secret123") as [_ Hsame].
  - intros row [<- | []]. split; [reflexivity | discriminate].
  - split; [|reflexivity]. apply Hsame; reflexivity.
Defined.

(** X28 on the reference host: the access lifetime misspelt. *)
Lemma misconfigured_lifetime_throws_witness :
  snd (login_handler
         {| JWT_ACCESS_SECRET := JWT_ACCESS_SECRET cfg;
            JWT_REFRESH_SECRET := JWT_REFRESH_SECRET cfg;
            JWT_ACCESS_TTL := "ten minutes"; JWT_REFRESH_TTL := "7d" |}
         db now
         {| validationError := None;
            body := {| identifier := "jdoe"; password := "secret123" |} |})
  = Throw "expiresIn".
Proof.
  destruct (misconfigured_lifetime_throws (R := reference)
              {| JWT_ACCESS_SECRET := JWT_ACCESS_SECRET cfg;
                 JWT_REFRESH_SECRET := JWT_REFRESH_SECRET cfg;
                 JWT_ACCESS_TTL := "ten minutes"; JWT_REFRESH_TTL := "7d" |}
              db now
              {| validationError := None;
                 body := {| identifier := "jdoe"; password := "secret123" |} |})
    as [Hthrow _]; [left; reflexivity|].
  destruct (Hthrow jane eq_refl eq_refl eq_refl) as [Hres _]. exact Hres.
Defined.

(** X30 on the reference host: the browser that held both tokens, after a
    logout, asking for [/dashboard]. *)
Lemma logout_locks_protected_pages_witness :
  action (middleware now (visit "/dashboard" "" [] (sent_cookies (logout browser))))
  = Redirect "/login" [("next", "/dashboard")].
Proof.
  destruct (logout_locks_protected_pages (R := reference) now browser
              (visit "/dashboard" "" [] (sent_cookies (logout browser))))
    as (_ & _ & Hres); [discriminate | reflexivity | reflexivity |].
  rewrite Hres. reflexivity.
Defined.

End Examples.
